(** * bleep: GATT attributes, characteristics and descriptors

    A shallow embedding of [bleep/characteristic.py]: the classes
    [BLEAttribute], [BLEDescriptor] and [BLECharacteristic], over an explicit
    Python-like object store, with the device, the requester, the standard
    library's [uuid.UUID] and the user's callbacks as stubs. *)

From stdpp Require Import gmap strings list fin_maps.
From Stdlib Require Import ZArith NArith.
From Stdlib.Strings Require Import Byte Ascii.
From stdpp Require Import sorting.

(** ** Python values, objects and exceptions *)

(** A reference to an object of the store: its index. *)
Abbreviation loc := nat (only parsing).
(** The identity of a [BLEDevice] object (an external collaborator). *)
Abbreviation device_id := nat (only parsing).
(** The identity of a callable given to [notify] or [indicate]. *)
Abbreviation callback := nat (only parsing).
(** A Python [bytes] payload. *)
Abbreviation bytes := (list byte) (only parsing).

(** The exception classes that occur.  [RuntimeError] is the one class that
    pygattlib raises for every error response of the peripheral, the message
    telling which; [OtherError] stands for any further class a collaborator
    may raise ([ValueError] from [UUID], ...). *)
Inductive exn :=
| TypeError
| AttributeError
| UnboundLocalError
| RuntimeError (msg : string)
| OtherError (name : string).

Definition is_RuntimeError (e : exn) : bool :=
  match e with RuntimeError _ => true | _ => false end.

Inductive result (A : Type) :=
| Ok (a : A)
| Raise (e : exn).
Arguments Ok {A} a.
Arguments Raise {A} e.

(** The three classes of the module.  [class BLEAttribute:] and
    [class BLECharacteristic:] name no base class;
    [class BLEDescriptor(BLEAttribute):] names one. *)
Inductive class_name :=
| cBLEAttribute
| cBLEDescriptor
| cBLECharacteristic.

Definition bases (c : class_name) : list class_name :=
  match c with
  | cBLEAttribute => []
  | cBLEDescriptor => [cBLEAttribute]
  | cBLECharacteristic => []
  end.

(** The values held by attributes and passed as arguments.  A UUID is its
    128-bit integer ([uuid.UUID.int]); a dict here is always the table of
    descriptors by UUID. *)
Inductive value :=
| VNone
| VInt (z : Z)
| VUUID (u : N)
| VDevice (d : device_id)
| VRef (l : loc)
| VFuncs (fs : list callback)
| VDict (m : gmap N (list loc))
| VAccessor (underlying : value) (multi : bool).

(** An object: its class and its [__dict__]. *)
Record Obj := mkObj {
  obj_class : class_name;
  obj_dict : gmap string value
}.

(** What the device and the requester are asked to do, in order. *)
Inductive Event :=
| register_handle_call (d : device_id) (handle : Z) (attribute : loc)
| read_handle_call (d : device_id) (handle : Z)
| write_handle_call (d : device_id) (handle : Z) (data : bytes) (response : bool)
| discover_descriptors_call (d : device_id) (start_handle end_handle : Z)
| callback_call (f : callback) (data : bytes).

(** The state of the program: the object store, the handle registry of the
    devices, and the calls made so far. *)
Record World := mkWorld {
  heap : list Obj;
  registry : gmap (device_id * Z) loc;
  trace : list Event
}.

(** One element of what [discover_descriptors] returns:
    [{'handle': ..., 'uuid': ...}]. *)
Record raw_descriptor := mkRaw {
  rd_handle : Z;
  rd_uuid : string
}.

(** The collaborators that are not part of the module, as stubs: what each
    call answers, or the exception it raises. *)
Record Env := mkEnv {
  (** [device.read_handle(handle)] *)
  read_handle_stub : device_id → Z → result bytes;
  (** [device.write_handle(handle, data, response)] *)
  write_handle_stub : device_id → Z → bytes → bool → result unit;
  (** [device.register_handle(handle, attribute)]: the exception it raises,
      if any *)
  register_handle_stub : device_id → Z → option exn;
  (** [device.requester.discover_descriptors(start, end)] *)
  discover_descriptors_stub : device_id → Z → Z → result (list raw_descriptor);
  (** [uuid.UUID(hex)] of the standard library: the integer of the UUID, or
      the exception raised for a badly formed string *)
  UUID_stub : string → result N;
  (** a callback applied to a payload: the exception it raises, if any *)
  callback_stub : callback → bytes → option exn
}.

(** ** The monad of Python code: state, and exceptions that keep the state *)

Definition M (A : Type) : Type := World → result A * World.

#[global] Instance M_ret : MRet M := λ A a w, (Ok a, w).
#[global] Instance M_bind : MBind M := λ A B f m w,
  match m w with
  | (Ok a, w') => f a w'
  | (Raise e, w') => (Raise e, w')
  end.

Definition raise {A : Type} (e : exn) : M A := λ w, (Raise e, w).

(** The answer of a stub: its value is returned, its exception raised. *)
Definition answer {A : Type} (r : result A) : M A := λ w, (r, w).

(** [try: body except RuntimeError: handler] *)
Definition try_except_RuntimeError {A : Type} (body handler : M A) : M A := λ w,
  match body w with
  | (Raise (RuntimeError _), w') => handler w'
  | r => r
  end.

(** [for x in l: body(x)], the body threading the local variables [acc]. *)
Fixpoint for_each {A B : Type} (l : list A) (body : A → B → M B) (acc : B) : M B :=
  match l with
  | [] => mret acc
  | x :: l' => acc' ← body x acc; for_each l' body acc'
  end.

Definition log (ev : Event) : M unit := λ w,
  (Ok tt, mkWorld (heap w) (registry w) (trace w ++ [ev])).

(** ** Objects *)

(** [cls.__new__]: a fresh object with an empty [__dict__]. *)
Definition alloc (c : class_name) : M loc := λ w,
  (Ok (length (heap w)),
   mkWorld (heap w ++ [mkObj c ∅]) (registry w) (trace w)).

(** [self.name] *)
Definition getattr (self : loc) (name : string) : M value := λ w,
  match heap w !! self with
  | Some o =>
      match obj_dict o !! name with
      | Some v => (Ok v, w)
      | None => (Raise AttributeError, w)
      end
  | None => (Raise AttributeError, w)
  end.

Definition set_field (name : string) (v : value) (o : Obj) : Obj :=
  mkObj (obj_class o) (<[name := v]> (obj_dict o)).

(** [self.name = v] *)
Definition setattr (self : loc) (name : string) (v : value) : M unit := λ w,
  (Ok tt, mkWorld (alter (set_field name v) self (heap w)) (registry w) (trace w)).

Definition as_int (v : value) : M Z :=
  match v with VInt z => mret z | _ => raise TypeError end.
Definition as_uuid (v : value) : M N :=
  match v with VUUID u => mret u | _ => raise AttributeError end.
Definition as_device (v : value) : M device_id :=
  match v with VDevice d => mret d | _ => raise AttributeError end.
Definition as_funcs (v : value) : M (list callback) :=
  match v with VFuncs fs => mret fs | _ => raise AttributeError end.

(** ** The collaborators *)

Module BLEDevice.
Section methods.
Context (env : Env).

(** Modelled from the spec: the handle registry of the device, which is not
    in the module: "an explicit mapping from integer handle to attribute
    reference, owned by the device". *)
Definition record_handle (d : device_id) (handle : Z) (attribute : loc) : M unit := λ w,
  (Ok tt, mkWorld (heap w) (<[(d, handle) := attribute]> (registry w)) (trace w)).

(** Modelled from the spec: [register_handle] of the device, which is not in
    the module: it "records the mapping the device uses to route inbound
    notification/indication frames" to the attribute.  The stub may make it
    raise, as any call of the device may. *)
Definition register_handle (d : device_id) (handle : Z) (attribute : loc) : M unit :=
  log (register_handle_call d handle attribute) ;;
  match register_handle_stub env d handle with
  | Some e => raise e
  | None => record_handle d handle attribute
  end.

Definition read_handle (d : device_id) (handle : Z) : M bytes :=
  log (read_handle_call d handle) ;;
  answer (read_handle_stub env d handle).

Definition write_handle (d : device_id) (handle : Z) (data : bytes) (response : bool) : M unit :=
  log (write_handle_call d handle data response) ;;
  answer (write_handle_stub env d handle data response).

(** [device.requester.discover_descriptors(start, end)] *)
Definition discover_descriptors (d : device_id) (start_handle end_handle : Z)
  : M (list raw_descriptor) :=
  log (discover_descriptors_call d start_handle end_handle) ;;
  answer (discover_descriptors_stub env d start_handle end_handle).

End methods.
End BLEDevice.

(** [uuid.UUID(hex)] *)
Definition UUID (env : Env) (hex : string) : M N := answer (UUID_stub env hex).

(** [callback(data)] *)
Definition call (env : Env) (f : callback) (data : bytes) : M unit :=
  log (callback_call f data) ;;
  match callback_stub env f data with
  | Some e => raise e
  | None => mret tt
  end.

(** ** UUIDs as text *)

(** Python slicing [s[i:j]] of a string, for [0 <= i <= j]. *)
Definition slice (i j : nat) (s : string) : string := String.substring i (j - i) s.

Definition hex_digit (n : N) : ascii :=
  match String.get (N.to_nat n) "0123456789abcdef" with
  | Some c => c
  | None => "0"%char
  end.

(** ['%0wx' % n], for [n] below [16^w]: [w] digits, the most significant
    first. *)
Fixpoint hex_fixed (w : nat) (n : N) : string :=
  match w with
  | O => EmptyString
  | S w' => String (hex_digit ((n / 16 ^ N.of_nat w') mod 16)) (hex_fixed w' n)
  end.

(** [str(uuid)] of the standard library:
    [hex = '%032x' % self.int] and then
    ['%s-%s-%s-%s-%s' % (hex[:8], hex[8:12], hex[12:16], hex[16:20], hex[20:])].
    The integer of a UUID is below [2^128], so that [hex] has 32 digits. *)
Definition UUID_str (u : N) : string :=
  let hex := hex_fixed 32 u in
  slice 0 8 hex +:+ "-" +:+ slice 8 12 hex +:+ "-" +:+ slice 12 16 hex +:+ "-"
    +:+ slice 16 20 hex +:+ "-" +:+ slice 20 32 hex.

(** The 96 low bits of the Bluetooth base UUID,
    [xxxxxxxx-0000-1000-8000-00805f9b34fb]. *)
Definition BASE_UUID_low : N := 0x0000_1000_8000_00805f9b34fb.

(** Modelled from the spec: [is_short_uuid] of [bleep.util], which is not in
    the module: whether the UUID "is of the form
    0000XXXX-0000-1000-8000-00805F9B34FB", an exact match on the bits around
    the 16-bit segment [XXXX]. *)
Definition is_short_uuid (u : N) : bool :=
  (u / 2 ^ 112 =? 0)%N && (u mod 2 ^ 96 =? BASE_UUID_low)%N.

(** The 16-bit segment [XXXX] of a UUID. *)
Definition short_segment (u : N) : N := (u / 2 ^ 96) mod 2 ^ 16.

(** ** class BLEAttribute *)

Module BLEAttribute.
Section methods.
Context (env : Env).

Definition __init__ (self : loc) (device : device_id) (handle : Z) (uuid : N) : M unit :=
  setattr self "device" (VDevice device) ;;
  setattr self "value_handle" (VInt handle) ;;
  setattr self "uuid" (VUUID uuid) ;;
  (* Register us for updates *)
  d ← getattr self "device" ≫= as_device;
  h ← getattr self "value_handle" ≫= as_int;
  BLEDevice.register_handle env d h self ;;
  (* Allow us to propagate callbacks *)
  setattr self "_notification_callbacks" (VFuncs []) ;;
  setattr self "_indication_callbacks" (VFuncs []).

Definition shortest_uuid (self : loc) : M string :=
  u ← getattr self "uuid" ≫= as_uuid;
  if is_short_uuid u then
    u' ← getattr self "uuid" ≫= as_uuid;
    mret (slice 4 8 (UUID_str u'))
  else
    u' ← getattr self "uuid" ≫= as_uuid;
    mret (UUID_str u').

Definition read (self : loc) : M bytes :=
  d ← getattr self "device" ≫= as_device;
  h ← getattr self "value_handle" ≫= as_int;
  BLEDevice.read_handle env d h.

Definition write (self : loc) (data : bytes) (response : bool) : M unit :=
  d ← getattr self "device" ≫= as_device;
  h ← getattr self "value_handle" ≫= as_int;
  BLEDevice.write_handle env d h data response.

Definition notify (self : loc) (function : callback) : M unit :=
  fs ← getattr self "_notification_callbacks" ≫= as_funcs;
  setattr self "_notification_callbacks" (VFuncs (fs ++ [function])).

Definition indicate (self : loc) (function : callback) : M unit :=
  fs ← getattr self "_indication_callbacks" ≫= as_funcs;
  setattr self "_indication_callbacks" (VFuncs (fs ++ [function])).

Definition _on_notification (self : loc) (data : bytes) : M unit :=
  fs ← getattr self "_notification_callbacks" ≫= as_funcs;
  for_each fs (λ callback _, call env callback data) tt.

Definition _on_indication (self : loc) (data : bytes) : M unit :=
  fs ← getattr self "_indication_callbacks" ≫= as_funcs;
  for_each fs (λ callback _, call env callback data) tt.

(** [BLEAttribute(device, handle, uuid)] *)
Definition new (device : device_id) (handle : Z) (uuid : N) : M loc :=
  self ← alloc cBLEAttribute;
  __init__ self device handle uuid ;;
  mret self.

Definition __repr__ (self : loc) : M string :=
  raise (OtherError "NotImplementedError").

End methods.
End BLEAttribute.

(** ** super *)

(** [object.__init__(self, ...)] for an object of a class that defines
    [__init__]: it takes no argument besides the instance. *)
Definition object___init__ (self : loc) (args : list value) : M unit :=
  match args with
  | [] => mret tt
  | _ :: _ => raise TypeError
  end.

(** [super(c, self).__init__(...)], [self] being an instance of [c]: the
    [__init__] of the class that follows [c] in the method resolution order,
    its first base or else [object].  (Under Python 2 a class without a
    base is an old-style class, for which [super] itself raises
    [TypeError].) *)
Definition super___init__ (env : Env) (c : class_name) (self : loc) (args : list value)
  : M unit :=
  match bases c with
  | cBLEAttribute :: _ =>
      match args with
      | [VDevice device; VInt handle; VUUID uuid] =>
          BLEAttribute.__init__ env self device handle uuid
      | _ => raise TypeError
      end
  | _ :: _ => raise TypeError
  | [] => object___init__ self args
  end.

(** The classes in which an attribute of an instance of [c] is looked up,
    in order: [c] and its bases, none of which has a base of its own. *)
Definition mro (c : class_name) : list class_name := c :: bases c.

(** The classes that define [shortest_uuid]. *)
Definition defines_shortest_uuid (c : class_name) : bool :=
  match c with
  | cBLEAttribute => true
  | cBLEDescriptor | cBLECharacteristic => false
  end.

(** [self.shortest_uuid()]: the method is looked up in the class of [self]
    and its bases; no instance holds an attribute of that name. *)
Definition self_shortest_uuid (self : loc) : M string := λ w,
  match heap w !! self with
  | Some o =>
      if existsb defines_shortest_uuid (mro (obj_class o))
      then BLEAttribute.shortest_uuid self w
      else (Raise AttributeError, w)
  | None => (Raise AttributeError, w)
  end.

(** A table of names by short UUID, as [DESC_UUIDS] and [CHAR_UUIDS] of
    [bleep.util], which are not in the module: each entry is a dict. *)
Abbreviation uuid_table := (gmap string (gmap string string)) (only parsing).

(** [table[key]['name']] *)
Definition table_name (table : uuid_table) (key : string) : M string :=
  match table !! key with
  | Some entry =>
      match entry !! "name" with
      | Some name => mret name
      | None => raise (OtherError "KeyError")
      end
  | None => raise (OtherError "KeyError")
  end.

(** ** class BLEDescriptor(BLEAttribute) *)

Module BLEDescriptor.
Section methods.
Context (env : Env).

Definition __init__ (self : loc) (device : device_id) (handle : Z) (uuid : N) : M unit :=
  super___init__ env cBLEDescriptor self [VDevice device; VInt handle; VUUID uuid].

(** [BLEDescriptor(device, handle, uuid)] *)
Definition new (device : device_id) (handle : Z) (uuid : N) : M loc :=
  self ← alloc cBLEDescriptor;
  __init__ self device handle uuid ;;
  mret self.

(** ['%s' % self.shortest_uuid() if self.shortest_uuid() not in DESC_UUIDS
     else DESC_UUIDS[self.shortest_uuid()]['name']] *)
Definition __repr__ (DESC_UUIDS : uuid_table) (self : loc) : M string :=
  key ← self_shortest_uuid self;
  if bool_decide (DESC_UUIDS !! key = None) then
    text ← self_shortest_uuid self;
    mret text
  else
    key ← self_shortest_uuid self;
    table_name DESC_UUIDS key.

End methods.
End BLEDescriptor.

(** ** class BLECharacteristic *)

(** Modelled from the spec: [UUIDAccessor] of [bleep.util], which is not in
    the module: a read-only view "over a single owned mapping", in unique
    mode or, with a second argument [True], in list mode. *)
Definition UUIDAccessor (underlying : value) (multi : bool) : M value :=
  mret (VAccessor underlying multi).

Module BLECharacteristic.
Section methods.
Context (env : Env).

(** The local variables of [_discover_descriptors] that the loop assigns:
    [descriptors], and [desc], unbound until its first assignment. *)
Definition locals : Type := gmap N (list loc) * option loc.

(** The body of the loop of [_discover_descriptors].  Nothing after the
    assignment of [desc] raises a [RuntimeError], so the handler finds the
    local variables as they were before the body. *)
Definition loop_body (self : loc) (descriptor : raw_descriptor) (vars : locals) : M locals :=
  let '(descriptors, desc) := vars in
  try_except_RuntimeError
    (d ← getattr self "device" ≫= as_device;
     uuid ← UUID env (rd_uuid descriptor);
     desc ← BLEDescriptor.new env d (rd_handle descriptor) uuid;
     k ← getattr desc "uuid" ≫= as_uuid;
     match descriptors !! k with
     | Some bucket => mret (<[k := bucket ++ [desc]]> descriptors, Some desc)
     | None => mret (<[k := [desc]]> descriptors, Some desc)
     end)
    (* pygattlib returns a RuntimeError if the device responds with an error
       which also happens when a descriptor cannot be found. *)
    (mret (descriptors, desc)).

Definition _discover_descriptors (self : loc) : M value :=
  let descriptors : gmap N (list loc) := ∅ in
  value_handle ← getattr self "value_handle" ≫= as_int;
  end_handle ← getattr self "end_handle" ≫= as_int;
  if (value_handle + 1 >? end_handle)%Z then mret (VDict descriptors) else
  d ← getattr self "device" ≫= as_device;
  value_handle ← getattr self "value_handle" ≫= as_int;
  end_handle ← getattr self "end_handle" ≫= as_int;
  found ← BLEDevice.discover_descriptors env d (value_handle + 1)%Z end_handle;
  vars ← for_each found (loop_body self) (descriptors, None);
  (* return desc *)
  match vars.2 with
  | Some desc => mret (VRef desc)
  | None => raise UnboundLocalError
  end.

Definition __init__ (self : loc) (device : device_id) (handle value_handle end_handle : Z)
    (uuid : N) (properties : Z) : M unit :=
  super___init__ env cBLECharacteristic self
    [VRef self; VDevice device; VInt value_handle; VUUID uuid] ;;
  setattr self "handle" (VInt handle) ;;
  setattr self "end_handle" (VInt end_handle) ;;
  setattr self "properties" (VInt properties) ;;
  ds ← _discover_descriptors self;
  setattr self "_descriptors" ds ;;
  ds ← getattr self "_descriptors";
  acc ← UUIDAccessor ds false;
  setattr self "descriptor" acc ;;
  ds ← getattr self "_descriptors";
  acc ← UUIDAccessor ds true;
  setattr self "descriptors" acc.

(** [BLECharacteristic(device, handle, value_handle, end_handle, uuid, properties)] *)
Definition new (device : device_id) (handle value_handle end_handle : Z)
    (uuid : N) (properties : Z) : M loc :=
  self ← alloc cBLECharacteristic;
  __init__ self device handle value_handle end_handle uuid properties ;;
  mret self.

(** [self.shortest_uuid() if self.shortest_uuid() not in CHAR_UUIDS
     else CHAR_UUIDS[self.shortest_uuid()]['name']] *)
Definition __repr__ (CHAR_UUIDS : uuid_table) (self : loc) : M string :=
  key ← self_shortest_uuid self;
  if bool_decide (CHAR_UUIDS !! key = None) then
    text ← self_shortest_uuid self;
    mret text
  else
    key ← self_shortest_uuid self;
    table_name CHAR_UUIDS key.

End methods.
End BLECharacteristic.

(** ** Vocabulary of the properties *)

(** The object [self] of the store has the attribute [name], of value [v]. *)
Definition has_attr (w : World) (self : loc) (name : string) (v : value) : Prop :=
  ∃ o, heap w !! self = Some o ∧ obj_dict o !! name = Some v.

(** An attribute whose [__init__] ran up to the call of [register_handle]. *)
Definition partial_object (c : class_name) (d : device_id) (h : Z) (u : N) : Obj :=
  set_field "uuid" (VUUID u) (set_field "value_handle" (VInt h)
    (set_field "device" (VDevice d) (mkObj c ∅))).

(** An attribute whose [__init__] returned. *)
Definition attribute_object (c : class_name) (d : device_id) (h : Z) (u : N) : Obj :=
  set_field "_indication_callbacks" (VFuncs [])
    (set_field "_notification_callbacks" (VFuncs []) (partial_object c d h u)).

(** The world after [BLEDescriptor(d, h, u)] returned the object
    [length (heap w)]. *)
Definition world_constructed (d : device_id) (h : Z) (u : N) (w : World) : World :=
  mkWorld (heap w ++ [attribute_object cBLEDescriptor d h u])
          (<[(d, h) := length (heap w)]> (registry w))
          (trace w ++ [register_handle_call d h (length (heap w))]).

(** The world after [register_handle] raised in [BLEDescriptor(d, h, u)]. *)
Definition world_failed (d : device_id) (h : Z) (u : N) (w : World) : World :=
  mkWorld (heap w ++ [partial_object cBLEDescriptor d h u])
          (registry w)
          (trace w ++ [register_handle_call d h (length (heap w))]).

(** [descriptors[uuid].append(desc)], or [descriptors[uuid] = [desc]] for a
    UUID seen for the first time. *)
Definition bucket_add (uuid : N) (desc : loc) (descriptors : gmap N (list loc))
  : gmap N (list loc) :=
  match descriptors !! uuid with
  | Some bucket => <[uuid := bucket ++ [desc]]> descriptors
  | None => <[uuid := [desc]]> descriptors
  end.

(** What the construction of the descriptor of one discovered pair raises,
    if anything: the exception of [UUID], or else of [register_handle]. *)
Definition construction_error (env : Env) (d : device_id) (p : raw_descriptor) : option exn :=
  match UUID_stub env (rd_uuid p) with
  | Raise e => Some e
  | Ok _ => register_handle_stub env d (rd_handle p)
  end.

(** The pairs whose descriptor is constructed, or whose construction raises
    a [RuntimeError]. *)
Definition constructed_or_RuntimeError (env : Env) (d : device_id) (p : raw_descriptor)
  : Prop :=
  match construction_error env d p with
  | Some e => is_RuntimeError e = true
  | None => True
  end.

(** The world once the call of [discover_descriptors] is made. *)
Definition world_discovering (d : device_id) (start_handle end_handle : Z) (w : World)
  : World :=
  mkWorld (heap w) (registry w)
          (trace w ++ [discover_descriptors_call d start_handle end_handle]).

(** The calls of the three constructors. *)
Inductive constructor_call :=
| new_BLEAttribute (device : device_id) (handle : Z) (uuid : N)
| new_BLEDescriptor (device : device_id) (handle : Z) (uuid : N)
| new_BLECharacteristic (device : device_id) (handle value_handle end_handle : Z)
    (uuid : N) (properties : Z).

Definition construct (env : Env) (c : constructor_call) : M loc :=
  match c with
  | new_BLEAttribute d h u => BLEAttribute.new env d h u
  | new_BLEDescriptor d h u => BLEDescriptor.new env d h u
  | new_BLECharacteristic d h vh eh u p => BLECharacteristic.new env d h vh eh u p
  end.



(** [for f in fs: self.notify(f)] *)
Definition notify_all (self : loc) (fs : list callback) : M unit :=
  for_each fs (λ f _, BLEAttribute.notify self f) tt.

(** The calls of the callbacks [fs], in order, each with [data]. *)
Definition calls (fs : list callback) (data : bytes) : list Event :=
  (λ f, callback_call f data) <$> fs.

(** ** Vocabulary of the further properties *)

(** [for f in fs: self.indicate(f)] *)
Definition indicate_all (self : loc) (fs : list callback) : M unit :=
  for_each fs (λ f _, BLEAttribute.indicate self f) tt.

(** The operations on an attribute once it is constructed. *)
Inductive operation :=
| op_read
| op_write (data : bytes) (response : bool)
| op_notify (f : callback)
| op_indicate (f : callback)
| op_on_notification (data : bytes)
| op_on_indication (data : bytes)
| op_shortest_uuid.

(** The world that an operation on [self] leaves, whether it returns or
    raises. *)
Definition world_after (env : Env) (self : loc) (op : operation) (w : World) : World :=
  match op with
  | op_read => (BLEAttribute.read env self w).2
  | op_write data response => (BLEAttribute.write env self data response w).2
  | op_notify f => (BLEAttribute.notify self f w).2
  | op_indicate f => (BLEAttribute.indicate self f w).2
  | op_on_notification data => (BLEAttribute._on_notification env self data w).2
  | op_on_indication data => (BLEAttribute._on_indication env self data w).2
  | op_shortest_uuid => (BLEAttribute.shortest_uuid self w).2
  end.

(** The pairs whose descriptor is constructed. *)
Definition constructs (env : Env) (d : device_id) (p : raw_descriptor) : bool :=
  match construction_error env d p with
  | None => true
  | Some _ => false
  end.

(** The text that [shortest_uuid] returns for a UUID. *)
Definition shortest (u : N) : string :=
  if is_short_uuid u then slice 4 8 (UUID_str u) else UUID_str u.

(** The pair [p] gave the descriptor [x.1], of UUID [x.2], which the store
    [w] holds as its constructor left it. *)
Definition constructed_as (env : Env) (d : device_id) (w : World) (p : raw_descriptor)
    (x : loc * N) : Prop :=
  UUID_stub env (rd_uuid p) = Ok x.2
  ∧ heap w !! x.1 = Some (attribute_object cBLEDescriptor d (rd_handle p) x.2).

(** [g] changes no field of an object but the two lists of callbacks. *)
Definition keeps_fields (g : Obj → Obj) : Prop :=
  ∀ o name, name ≠ "_notification_callbacks" → name ≠ "_indication_callbacks" →
    obj_dict (g o) !! name = obj_dict o !! name.


(** Every entry of the handle registry leads to an attribute of that device
    and of that value handle. *)
Definition registry_consistent (w : World) : Prop :=
  ∀ d h a, registry w !! (d, h) = Some a →
    has_attr w a "device" (VDevice d) ∧ has_attr w a "value_handle" (VInt h).

(** ** Stubs for the examples *)

Module Examples.

Definition hex_value (c : ascii) : option N :=
  match String.index 0 (String c EmptyString) "0123456789abcdef" with
  | Some i => Some (N.of_nat i)
  | None =>
      match String.index 0 (String c EmptyString) "0123456789ABCDEF" with
      | Some i => Some (N.of_nat i)
      | None => None
      end
  end.

(** The hexadecimal digits of [s], hyphens skipped: their number and value. *)
Fixpoint parse_hex (s : string) (digits : nat) (acc : N) : option (nat * N) :=
  match s with
  | EmptyString => Some (digits, acc)
  | String c s' =>
      if Ascii.eqb c "-" then parse_hex s' digits acc
      else match hex_value c with
           | Some v => parse_hex s' (S digits) (16 * acc + v)%N
           | None => None
           end
  end.

(** A [uuid.UUID] that reads the usual hyphenated form and raises
    [ValueError] on anything that has not 32 hexadecimal digits. *)
Definition parse_UUID (s : string) : result N :=
  match parse_hex s 0 0%N with
  | Some (32, u) => Ok u
  | _ => Raise (OtherError "ValueError")
  end.

Definition UuidA : string := "00002902-0000-1000-8000-00805f9b34fb".
Definition UuidB : string := "00002901-0000-1000-8000-00805f9b34fb".
Definition uuidA : N := 0x00002902_0000_1000_8000_00805f9b34fb.
Definition uuidB : N := 0x00002901_0000_1000_8000_00805f9b34fb.

(** A [RuntimeError] that reports the error response "attribute not found",
    and one that reports another error response. *)
Definition not_found : exn :=
  RuntimeError "Attribute can't be found within the given attribute handle range".

(** A peripheral that answers the discovery of [10..12] with three
    descriptors, two of them of the same UUID; every other call succeeds. *)
Definition env_three : Env := {|
  read_handle_stub _ _ := Ok [x01; x02];
  write_handle_stub _ _ _ _ := Ok tt;
  register_handle_stub _ _ := None;
  discover_descriptors_stub _ _ _ :=
    Ok [mkRaw 10 UuidA; mkRaw 11 UuidB; mkRaw 12 UuidA];
  UUID_stub := parse_UUID;
  callback_stub _ _ := None
|}.

(** A characteristic as its constructor is meant to leave it before the
    discovery, written out field by field. *)
Definition characteristic_object (device : device_id) (handle value_handle end_handle : Z)
    (uuid : N) (properties : Z) : Obj :=
  mkObj cBLECharacteristic
    (<["device" := VDevice device]> (<["value_handle" := VInt value_handle]>
     (<["uuid" := VUUID uuid]> (<["_notification_callbacks" := VFuncs []]>
     (<["_indication_callbacks" := VFuncs []]> (<["handle" := VInt handle]>
     (<["end_handle" := VInt end_handle]> (<["properties" := VInt properties]> ∅)))))))).

Definition empty_world : World := mkWorld [] ∅ [].

(** A characteristic in a world of its own. *)
Definition world_of_characteristic (value_handle end_handle : Z) : World :=
  mkWorld [characteristic_object 0 8 value_handle end_handle
             0x00002a37_0000_1000_8000_00805f9b34fb 16] ∅ [].

(** A peripheral that answers the discovery of [6..8] with three pairs, the
    device raising [e] when the descriptor of handle 7 registers. *)
Definition env_raising_at_7 (e : exn) : Env := {|
  read_handle_stub _ _ := Ok [];
  write_handle_stub _ _ _ _ := Ok tt;
  register_handle_stub _ h := if (h =? 7)%Z then Some e else None;
  discover_descriptors_stub _ _ _ :=
    Ok [mkRaw 6 UuidA; mkRaw 7 UuidB; mkRaw 8 UuidA];
  UUID_stub := parse_UUID;
  callback_stub _ _ := None
|}.

(** A peripheral whose second pair has a UUID that [UUID] refuses. *)
Definition env_bad_uuid : Env := {|
  read_handle_stub _ _ := Ok [];
  write_handle_stub _ _ _ _ := Ok tt;
  register_handle_stub _ _ := None;
  discover_descriptors_stub _ _ _ :=
    Ok [mkRaw 6 UuidA; mkRaw 7 "2901"; mkRaw 8 UuidA];
  UUID_stub := parse_UUID;
  callback_stub _ _ := None
|}.

(** A device that raises "attribute not found" whenever a handle registers. *)
Definition env_none_constructed : Env := {|
  read_handle_stub _ _ := Ok [];
  write_handle_stub _ _ _ _ := Ok tt;
  register_handle_stub _ _ := Some not_found;
  discover_descriptors_stub _ _ _ := Ok [mkRaw 6 UuidA; mkRaw 7 UuidB];
  UUID_stub := parse_UUID;
  callback_stub _ _ := None
|}.

(** A requester whose [discover_descriptors] raises "attribute not found". *)
Definition env_discovery_not_found : Env := {|
  read_handle_stub _ _ := Ok [];
  write_handle_stub _ _ _ _ := Ok tt;
  register_handle_stub _ _ := None;
  discover_descriptors_stub _ _ _ := Raise not_found;
  UUID_stub := parse_UUID;
  callback_stub _ _ := None
|}.

(** Callbacks of which the one numbered 0 raises. *)
Definition env_callback_raises : Env := {|
  read_handle_stub _ _ := Ok [];
  write_handle_stub _ _ _ _ := Ok tt;
  register_handle_stub _ _ := None;
  discover_descriptors_stub _ _ _ := Ok [];
  UUID_stub := parse_UUID;
  callback_stub f _ := if (f =? 0)%nat then Some (OtherError "Exception") else None
|}.

(** A descriptor on which the callbacks 0 and then 1 are registered, and a
    notification of [b'\x01\x02']. *)
Definition two_callbacks_notified (env : Env) : M unit :=
  a ← BLEDescriptor.new env 0 9 uuidA;
  BLEAttribute.notify a 0 ;;
  BLEAttribute.notify a 1 ;;
  BLEAttribute._on_notification env a [x01; x02].

(** A descriptor on which the callbacks 1, 0 and 1 again are registered,
    and a notification of [b'\x01\x02']. *)
Definition registered_twice_notified (env : Env) : M unit :=
  a ← BLEDescriptor.new env 0 9 uuidA;
  notify_all a [1; 0; 1] ;;
  BLEAttribute._on_notification env a [x01; x02].

(** A descriptor with three callbacks for indications, in a world of its
    own. *)
Definition world_of_indicated : World :=
  mkWorld [set_field "_indication_callbacks" (VFuncs [1; 0; 2])
             (attribute_object cBLEDescriptor 0 9 uuidA)] ∅ [].

(** A table of names with the entry of [UuidA]. *)
Definition names : gmap string (gmap string string) :=
  {["2902" := {["name" := "Client Characteristic Configuration"]}]}.

End Examples.

(** * Properties *)

(** ** The object store *)

Lemma bind_eq {A B : Type} (m : M A) (f : A → M B) (w : World) :
  (m ≫= f) w = match m w with
               | (Ok a, w') => f a w'
               | (Raise e, w') => (Raise e, w')
               end.
Proof. reflexivity. Qed.

Lemma getattr_eq (self : loc) (name : string) (w : World) (o : Obj) :
  heap w !! self = Some o →
  getattr self name w =
    match obj_dict o !! name with
    | Some v => (Ok v, w)
    | None => (Raise AttributeError, w)
    end.
Proof. intros H. unfold getattr. by rewrite H. Qed.

Lemma getattr_has_attr (self : loc) (name : string) (w : World) (v : value) :
  has_attr w self name v → getattr self name w = (Ok v, w).
Proof. intros (o & Ho & Hv). rewrite (getattr_eq _ _ _ _ Ho). by rewrite Hv. Qed.

Lemma setattr_eq (self : loc) (name : string) (v : value) (w : World) (o : Obj) :
  heap w !! self = Some o →
  setattr self name v w =
    (Ok tt, mkWorld (<[self := set_field name v o]> (heap w)) (registry w) (trace w)).
Proof.
  intros H. unfold setattr. do 2 f_equal.
  apply list_eq. intros i. destruct (decide (i = self)) as [->|Hne].
  - rewrite list_lookup_alter_eq, H. simpl.
    rewrite list_lookup_insert_eq; [done|]. by eapply lookup_lt_Some.
  - by rewrite list_lookup_alter_ne, list_lookup_insert_ne.
Qed.

Lemma setattr_insert (self : loc) (name : string) (v : value) (h : list Obj)
    (r : gmap (nat * Z) nat) (t : list Event) (o : Obj) :
  self < length h →
  setattr self name v (mkWorld (<[self := o]> h) r t) =
    (Ok tt, mkWorld (<[self := set_field name v o]> h) r t).
Proof.
  intros Hlt. erewrite setattr_eq by (simpl; by apply list_lookup_insert_eq).
  simpl. by rewrite list_insert_insert_eq.
Qed.

Lemma getattr_insert (self : loc) (name : string) (h : list Obj)
    (r : gmap (nat * Z) nat) (t : list Event) (o : Obj) :
  self < length h →
  getattr self name (mkWorld (<[self := o]> h) r t) =
    match obj_dict o !! name with
    | Some v => (Ok v, mkWorld (<[self := o]> h) r t)
    | None => (Raise AttributeError, mkWorld (<[self := o]> h) r t)
    end.
Proof. intros Hlt. apply getattr_eq. simpl. by apply list_lookup_insert_eq. Qed.

Lemma has_attr_app (w w' : World) (self : loc) (name : string) (v : value) (os : list Obj) :
  heap w' = heap w ++ os → has_attr w self name v → has_attr w' self name v.
Proof.
  intros Hh (o & Ho & Hv). exists o. split; [|done].
  rewrite Hh. by apply lookup_app_l_Some.
Qed.

Ltac dict_lookup :=
  unfold set_field; cbn [obj_dict obj_class];
  repeat (rewrite lookup_insert_eq || rewrite lookup_insert_ne by done).

Ltac step :=
  rewrite ?bind_eq;
  first [ rewrite setattr_insert by done
        | rewrite getattr_insert by done; dict_lookup ];
  cbn beta iota.

Section properties.
Context (env : Env).

(** ** Construction *)

Lemma BLEAttribute_init_insert (self : loc) (d : device_id) (h : Z) (u : N)
    (hp : list Obj) (r : gmap (nat * Z) nat) (t : list Event) (o : Obj) :
  self < length hp →
  BLEAttribute.__init__ env self d h u (mkWorld (<[self := o]> hp) r t) =
    let o3 := set_field "uuid" (VUUID u) (set_field "value_handle" (VInt h)
                (set_field "device" (VDevice d) o)) in
    match register_handle_stub env d h with
    | Some e =>
        (Raise e, mkWorld (<[self := o3]> hp) r (t ++ [register_handle_call d h self]))
    | None =>
        (Ok tt, mkWorld (<[self := set_field "_indication_callbacks" (VFuncs [])
                                     (set_field "_notification_callbacks" (VFuncs []) o3)]> hp)
                  (<[(d, h) := self]> r)
                  (t ++ [register_handle_call d h self]))
    end.
Proof.
  intros Hlt. unfold BLEAttribute.__init__.
  do 3 step. do 2 (step; cbn [as_device as_int mret M_ret]; cbn beta iota).
  unfold BLEDevice.register_handle. rewrite !bind_eq. cbn [log heap registry trace].
  destruct (register_handle_stub env d h) as [e|]; [done|].
  cbn [BLEDevice.record_handle heap registry trace].
  by do 2 step.
Qed.

Lemma insert_snoc (hp : list Obj) (o o' : Obj) :
  <[length hp := o']> (hp ++ [o]) = hp ++ [o'].
Proof. by rewrite insert_app_r_alt, Nat.sub_diag by done. Qed.

(** The closed form of the construction of an attribute of class [c] by
    [alloc] and [BLEAttribute.__init__]. *)
Lemma alloc_init_eq (c : class_name) (d : device_id) (h : Z) (u : N) (w : World) :
  (self ← alloc c; BLEAttribute.__init__ env self d h u ;; mret self) w =
    match register_handle_stub env d h with
    | Some e =>
        (Raise e, mkWorld (heap w ++ [partial_object c d h u]) (registry w)
                    (trace w ++ [register_handle_call d h (length (heap w))]))
    | None =>
        (Ok (length (heap w)),
         mkWorld (heap w ++ [attribute_object c d h u])
                 (<[(d, h) := length (heap w)]> (registry w))
                 (trace w ++ [register_handle_call d h (length (heap w))]))
    end.
Proof.
  rewrite bind_eq. unfold alloc. cbn beta iota.
  rewrite <- (insert_snoc (heap w) (mkObj c ∅) (mkObj c ∅)) at 1.
  rewrite bind_eq, BLEAttribute_init_insert
    by (rewrite length_app; simpl; lia).
  cbn zeta. destruct (register_handle_stub env d h) as [e|];
    by rewrite insert_snoc.
Qed.

Lemma BLEDescriptor_new_eq (d : device_id) (h : Z) (u : N) (w : World) :
  BLEDescriptor.new env d h u w =
    match register_handle_stub env d h with
    | Some e => (Raise e, world_failed d h u w)
    | None => (Ok (length (heap w)), world_constructed d h u w)
    end.
Proof. apply alloc_init_eq. Qed.

Lemma BLEAttribute_new_eq (d : device_id) (h : Z) (u : N) (w : World) :
  BLEAttribute.new env d h u w =
    match register_handle_stub env d h with
    | Some e =>
        (Raise e, mkWorld (heap w ++ [partial_object cBLEAttribute d h u]) (registry w)
                    (trace w ++ [register_handle_call d h (length (heap w))]))
    | None =>
        (Ok (length (heap w)),
         mkWorld (heap w ++ [attribute_object cBLEAttribute d h u])
                 (<[(d, h) := length (heap w)]> (registry w))
                 (trace w ++ [register_handle_call d h (length (heap w))]))
    end.
Proof. apply alloc_init_eq. Qed.

(** The call of [super] in [BLECharacteristic.__init__] reaches
    [object.__init__] with four arguments. *)
Lemma BLECharacteristic_init_raises (self : loc) (d : device_id) (h vh eh : Z) (u : N)
    (p : Z) (w : World) :
  BLECharacteristic.__init__ env self d h vh eh u p w = (Raise TypeError, w).
Proof. reflexivity. Qed.

Lemma attribute_object_attrs (c : class_name) (d : device_id) (h : Z) (u : N) :
  obj_dict (attribute_object c d h u) !! "device" = Some (VDevice d)
  ∧ obj_dict (attribute_object c d h u) !! "value_handle" = Some (VInt h)
  ∧ obj_dict (attribute_object c d h u) !! "uuid" = Some (VUUID u)
  ∧ obj_dict (attribute_object c d h u) !! "_notification_callbacks" = Some (VFuncs [])
  ∧ obj_dict (attribute_object c d h u) !! "_indication_callbacks" = Some (VFuncs []).
Proof. unfold attribute_object, partial_object. by repeat split; dict_lookup. Qed.

(** C2, as the code has it: the construction of a characteristic raises
    [TypeError] on every input, at the call of [super], before any field is
    assigned; the world keeps only the empty object that was allocated. *)
Theorem characteristic_construction_raises (d : device_id) (h vh eh : Z) (u : N) (p : Z)
    (w : World) :
  BLECharacteristic.new env d h vh eh u p w =
    (Raise TypeError,
     mkWorld (heap w ++ [mkObj cBLECharacteristic ∅]) (registry w) (trace w)).
Proof.
  unfold BLECharacteristic.new. rewrite bind_eq. unfold alloc. cbn beta iota.
  by rewrite bind_eq, BLECharacteristic_init_raises.
Qed.


(** ** Reading and writing *)

(** C7: [read] makes one call of [read_handle], on the value handle, and
    returns what it answers or raises what it raises; [write] makes one call
    of [write_handle], with the value handle, the data and the flag, and
    returns or raises likewise.  Nothing else changes. *)
Theorem read_write_delegate (self : loc) (d : device_id) (h : Z) (data : bytes)
    (response : bool) (w : World) :
  has_attr w self "device" (VDevice d) →
  has_attr w self "value_handle" (VInt h) →
  BLEAttribute.read env self w =
    (read_handle_stub env d h,
     mkWorld (heap w) (registry w) (trace w ++ [read_handle_call d h]))
  ∧ BLEAttribute.write env self data response w =
      (write_handle_stub env d h data response,
       mkWorld (heap w) (registry w) (trace w ++ [write_handle_call d h data response])).
Proof.
  intros Hd Hh. unfold BLEAttribute.read, BLEAttribute.write.
  rewrite !bind_eq, !(getattr_has_attr _ _ _ _ Hd). cbn [as_device mret M_ret].
  cbn beta iota. rewrite !bind_eq, !(getattr_has_attr _ _ _ _ Hh).
  cbn [as_int mret M_ret]. cbn beta iota. done.
Qed.

(** ** Discovery of the descriptors *)

(** C8: with [value_handle + 1 > end_handle] the discovery returns the
    empty table and leaves the world as it was: no call is made. *)
Theorem empty_range_no_discovery (self : loc) (vh eh : Z) (w : World) :
  has_attr w self "value_handle" (VInt vh) →
  has_attr w self "end_handle" (VInt eh) →
  (vh + 1 > eh)%Z →
  BLECharacteristic._discover_descriptors env self w = (Ok (VDict ∅), w).
Proof.
  intros Hv He Hgt. unfold BLECharacteristic._discover_descriptors. cbn zeta.
  rewrite !bind_eq, (getattr_has_attr _ _ _ _ Hv). cbn [as_int mret M_ret].
  cbn beta iota. rewrite !bind_eq, (getattr_has_attr _ _ _ _ He).
  cbn [as_int mret M_ret]. cbn beta iota.
  destruct (Z.gtb_spec (vh + 1) eh) as [_|Hle]; [done|lia].
Qed.

(** One turn of the loop, by what the construction of the descriptor does. *)
Lemma loop_body_eq (self : loc) (d : device_id) (p : raw_descriptor)
    (ds : gmap N (list loc)) (desc : option loc) (w : World) :
  has_attr w self "device" (VDevice d) →
  BLECharacteristic.loop_body env self p (ds, desc) w =
    match UUID_stub env (rd_uuid p) with
    | Raise e => if is_RuntimeError e then (Ok (ds, desc), w) else (Raise e, w)
    | Ok u =>
        match register_handle_stub env d (rd_handle p) with
        | Some e =>
            if is_RuntimeError e then (Ok (ds, desc), world_failed d (rd_handle p) u w)
            else (Raise e, world_failed d (rd_handle p) u w)
        | None =>
            (Ok (bucket_add u (length (heap w)) ds, Some (length (heap w))),
             world_constructed d (rd_handle p) u w)
        end
    end.
Proof.
  intros Hd. unfold BLECharacteristic.loop_body, try_except_RuntimeError.
  rewrite !bind_eq, (getattr_has_attr _ _ _ _ Hd). cbn [as_device mret M_ret].
  cbn beta iota. rewrite bind_eq. unfold UUID, answer.
  destruct (UUID_stub env (rd_uuid p)) as [u|e]; [|by destruct e].
  rewrite bind_eq, BLEDescriptor_new_eq.
  destruct (register_handle_stub env d (rd_handle p)) as [e|]; [by destruct e|].
  rewrite !bind_eq.
  rewrite (getattr_has_attr _ "uuid" _ (VUUID u)).
  - cbn [as_uuid mret M_ret]. cbn beta iota. unfold bucket_add.
    by destruct (ds !! u).
  - eexists. split; [apply list_lookup_middle; done|]. apply attribute_object_attrs.
Qed.

Lemma has_attr_world_failed (self : loc) (name : string) (v : value) (d : device_id)
    (h : Z) (u : N) (w : World) :
  has_attr w self name v → has_attr (world_failed d h u w) self name v.
Proof. by apply has_attr_app with (os := [partial_object cBLEDescriptor d h u]). Qed.

Lemma has_attr_world_constructed (self : loc) (name : string) (v : value) (d : device_id)
    (h : Z) (u : N) (w : World) :
  has_attr w self name v → has_attr (world_constructed d h u w) self name v.
Proof. by apply has_attr_app with (os := [attribute_object cBLEDescriptor d h u]). Qed.

Lemma for_each_app {A B : Type} (l1 l2 : list A) (body : A → B → M B) (acc : B) (w : World) :
  for_each (l1 ++ l2) body acc w =
    (acc' ← for_each l1 body acc; for_each l2 body acc') w.
Proof.
  revert acc w. induction l1 as [|x l1 IH]; intros acc w; [done|].
  cbn [app for_each]. rewrite !bind_eq.
  destruct (body x acc w) as [[acc'|e] w1]; [|done].
  by rewrite IH, bind_eq.
Qed.

(** A loop over such pairs runs to its end: each [RuntimeError] is caught,
    and each descriptor that can be constructed is, and is registered. *)
Lemma loop_swallows_RuntimeError (self : loc) (d : device_id) (pairs : list raw_descriptor) :
  ∀ (vars : BLECharacteristic.locals) (w : World),
  has_attr w self "device" (VDevice d) →
  Forall (constructed_or_RuntimeError env d) pairs →
  ∃ vars' w',
    for_each pairs (BLECharacteristic.loop_body env self) vars w = (Ok vars', w')
    ∧ has_attr w' self "device" (VDevice d)
    ∧ (∀ k, is_Some (registry w !! k) → is_Some (registry w' !! k))
    ∧ (∀ p, p ∈ pairs → construction_error env d p = None →
         is_Some (registry w' !! (d, rd_handle p))).
Proof.
  induction pairs as [|p pairs IH]; intros [ds desc] w Hd Hall.
  - exists (ds, desc), w. repeat split; [done..|]. intros p Hp. by apply elem_of_nil in Hp.
  - apply Forall_cons in Hall as [Hp Hall].
    cbn [for_each]. rewrite bind_eq, (loop_body_eq _ d) by done.
    unfold constructed_or_RuntimeError, construction_error in Hp.
    unfold construction_error.
    destruct (UUID_stub env (rd_uuid p)) as [u|e] eqn:Hu.
    + destruct (register_handle_stub env d (rd_handle p)) as [e|] eqn:Hr.
      * rewrite Hp.
        destruct (IH (ds, desc) (world_failed d (rd_handle p) u w)) as
          (vars' & w' & Hrun & Hd' & Hmono & Hreg);
          [by apply has_attr_world_failed|done|].
        exists vars', w'. split; [done|]. split; [done|]. split; [done|].
        intros q [->|Hq]%elem_of_cons Hq'; [|by apply Hreg].
        rewrite Hu, Hr in Hq'. done.
      * destruct (IH (bucket_add u (length (heap w)) ds, Some (length (heap w)))
                    (world_constructed d (rd_handle p) u w)) as
          (vars' & w' & Hrun & Hd' & Hmono & Hreg);
          [by apply has_attr_world_constructed|done|].
        exists vars', w'. split; [done|]. split; [done|]. split.
        -- intros k Hk. apply Hmono. cbn [world_constructed registry].
           destruct (decide ((d, rd_handle p) = k)) as [<-|Hne].
           ++ by rewrite lookup_insert_eq.
           ++ by rewrite lookup_insert_ne.
        -- intros q [->|Hq]%elem_of_cons Hq'; [|by apply Hreg].
           apply Hmono. cbn [world_constructed registry]. by rewrite lookup_insert_eq.
    + rewrite Hp.
      destruct (IH (ds, desc) w) as (vars' & w' & Hrun & Hd' & Hmono & Hreg); [done..|].
      exists vars', w'. split; [done|]. split; [done|]. split; [done|].
      intros q [->|Hq]%elem_of_cons Hq'; [|by apply Hreg].
      rewrite Hu in Hq'. done.
Qed.

(** A loop in which every construction raises a [RuntimeError] assigns no
    local variable and registers nothing. *)
Lemma loop_all_RuntimeError (self : loc) (d : device_id) (pairs : list raw_descriptor) :
  ∀ (vars : BLECharacteristic.locals) (w : World),
  has_attr w self "device" (VDevice d) →
  Forall (λ p, ∃ m, construction_error env d p = Some (RuntimeError m)) pairs →
  ∃ w',
    for_each pairs (BLECharacteristic.loop_body env self) vars w = (Ok vars, w')
    ∧ registry w' = registry w.
Proof.
  induction pairs as [|p pairs IH]; intros [ds desc] w Hd Hall.
  - by exists w.
  - apply Forall_cons in Hall as [[m Hp] Hall].
    cbn [for_each]. rewrite bind_eq, (loop_body_eq _ d) by done.
    unfold construction_error in Hp.
    destruct (UUID_stub env (rd_uuid p)) as [u|e].
    + rewrite Hp. cbn [is_RuntimeError].
      destruct (IH (ds, desc) (world_failed d (rd_handle p) u w)) as (w' & Hrun & Hreg);
        [by apply has_attr_world_failed|done|].
      by exists w'.
    + injection Hp as ->. cbn [is_RuntimeError]. by apply IH.
Qed.

(** [_discover_descriptors] on a range that is not empty: the call of the
    requester, the loop, and [return desc]. *)
Lemma discover_descriptors_eq (self : loc) (d : device_id) (vh eh : Z) (w : World) :
  has_attr w self "device" (VDevice d) →
  has_attr w self "value_handle" (VInt vh) →
  has_attr w self "end_handle" (VInt eh) →
  (vh + 1 ≤ eh)%Z →
  BLECharacteristic._discover_descriptors env self w =
    match discover_descriptors_stub env d (vh + 1) eh with
    | Raise e => (Raise e, world_discovering d (vh + 1) eh w)
    | Ok found =>
        match for_each found (BLECharacteristic.loop_body env self) (∅, None)
                (world_discovering d (vh + 1) eh w) with
        | (Ok vars, w') =>
            match vars.2 with
            | Some desc => (Ok (VRef desc), w')
            | None => (Raise UnboundLocalError, w')
            end
        | (Raise e, w') => (Raise e, w')
        end
    end.
Proof.
  intros Hd Hv He Hle. unfold BLECharacteristic._discover_descriptors. cbn zeta.
  rewrite !bind_eq, (getattr_has_attr _ _ _ _ Hv). cbn [as_int mret M_ret].
  cbn beta iota. rewrite !bind_eq, (getattr_has_attr _ _ _ _ He).
  cbn [as_int mret M_ret]. cbn beta iota.
  destruct (Z.gtb_spec (vh + 1) eh) as [Hgt|_]; [lia|].
  rewrite !bind_eq, (getattr_has_attr _ _ _ _ Hd). cbn [as_device mret M_ret].
  cbn beta iota. rewrite !bind_eq, (getattr_has_attr _ _ _ _ Hv).
  cbn [as_int mret M_ret]. cbn beta iota.
  rewrite !bind_eq, (getattr_has_attr _ _ _ _ He). cbn [as_int mret M_ret].
  cbn beta iota. unfold BLEDevice.discover_descriptors. rewrite !bind_eq.
  cbn [log]. cbn beta iota. unfold answer, world_discovering.
  destruct (discover_descriptors_stub env d (vh + 1) eh) as [found|e]; [|done].
  rewrite bind_eq.
  destruct (for_each found _ _ _) as [[vars|e] w']; [|done].
  by destruct (vars.2).
Qed.

(** On a range that is not empty the discovery never returns the table of
    the descriptors: it returns one descriptor, or raises. *)
Lemma discover_descriptors_never_table (self : loc) (d : device_id) (vh eh : Z) (w w' : World)
    (m : gmap N (list loc)) :
  has_attr w self "device" (VDevice d) →
  has_attr w self "value_handle" (VInt vh) →
  has_attr w self "end_handle" (VInt eh) →
  (vh + 1 ≤ eh)%Z →
  BLECharacteristic._discover_descriptors env self w ≠ (Ok (VDict m), w').
Proof.
  intros Hd Hv He Hle. rewrite (discover_descriptors_eq _ d vh eh) by done.
  destruct (discover_descriptors_stub env d (vh + 1) eh) as [found|e]; [|done].
  destruct (for_each found _ _ _) as [[vars|e] w1]; [|done].
  by destruct (vars.2).
Qed.

(** C10: on a range that is not empty, when the requester returns pairs
    (or none) and the construction of every descriptor raises a
    [RuntimeError], [_discover_descriptors] raises [UnboundLocalError] at
    [return desc], having registered nothing; and the construction of a
    characteristic raises. *)
Theorem no_descriptor_is_unbound (self : loc) (d : device_id) (vh eh : Z)
    (pairs : list raw_descriptor) (w : World) :
  has_attr w self "device" (VDevice d) →
  has_attr w self "value_handle" (VInt vh) →
  has_attr w self "end_handle" (VInt eh) →
  (vh + 1 ≤ eh)%Z →
  discover_descriptors_stub env d (vh + 1) eh = Ok pairs →
  Forall (λ p, ∃ m, construction_error env d p = Some (RuntimeError m)) pairs →
  (∃ w', BLECharacteristic._discover_descriptors env self w = (Raise UnboundLocalError, w')
         ∧ registry w' = registry w)
  ∧ ∀ (h : Z) (u : N) (p : Z) (w0 : World),
      ∃ e w1, BLECharacteristic.new env d h vh eh u p w0 = (Raise e, w1).
Proof.
  intros Hd Hv He Hle Hstub Hall. split.
  - rewrite (discover_descriptors_eq _ d vh eh) by done. rewrite Hstub.
    destruct (loop_all_RuntimeError self d pairs (∅, None)
                (world_discovering d (vh + 1) eh w)) as (w' & -> & Hreg); [|done|].
    + by apply has_attr_app with (w := w) (os := []); [cbn; rewrite app_nil_r|].
    + by exists w'.
  - intros h u p w0. eexists _, _. unfold BLECharacteristic.new.
    rewrite bind_eq. unfold alloc. cbn beta iota.
    by rewrite bind_eq, BLECharacteristic_init_raises.
Qed.


(** ** Notifications *)

Lemma notify_eq (self : loc) (f : callback) (fs : list callback) (w : World) :
  has_attr w self "_notification_callbacks" (VFuncs fs) →
  ∃ w', BLEAttribute.notify self f w = (Ok tt, w')
    ∧ has_attr w' self "_notification_callbacks" (VFuncs (fs ++ [f]))
    ∧ registry w' = registry w ∧ trace w' = trace w.
Proof.
  intros Hfs. unfold BLEAttribute.notify.
  rewrite !bind_eq, (getattr_has_attr _ _ _ _ Hfs). cbn [as_funcs mret M_ret].
  cbn beta iota. destruct Hfs as (o & Ho & _).
  rewrite (setattr_eq _ _ _ _ _ Ho). eexists. split; [done|].
  split; [|done]. eexists. split.
  - cbn [heap]. apply list_lookup_insert_eq. by eapply lookup_lt_Some.
  - by dict_lookup.
Qed.

Lemma notify_all_eq (self : loc) (fs : list callback) :
  ∀ (fs0 : list callback) (w : World),
  has_attr w self "_notification_callbacks" (VFuncs fs0) →
  ∃ w', notify_all self fs w = (Ok tt, w')
    ∧ has_attr w' self "_notification_callbacks" (VFuncs (fs0 ++ fs))
    ∧ registry w' = registry w ∧ trace w' = trace w.
Proof.
  unfold notify_all. induction fs as [|f fs IH]; intros fs0 w Hfs0.
  - exists w. by rewrite app_nil_r.
  - cbn [for_each]. rewrite bind_eq.
    destruct (notify_eq self f fs0 w Hfs0) as (w1 & -> & Hfs1 & Hr1 & Ht1).
    destruct (IH (fs0 ++ [f]) w1 Hfs1) as (w' & Hrun & Hfs' & Hr' & Ht').
    exists w'. rewrite <- app_assoc in Hfs'. repeat split; [done..| |]; congruence.
Qed.

(** The loop of a dispatch over callbacks that all return. *)
Lemma dispatch_loop_returns (data : bytes) (fs : list callback) :
  ∀ w : World,
  Forall (λ f, callback_stub env f data = None) fs →
  for_each fs (λ callback _, call env callback data) tt w =
    (Ok tt, mkWorld (heap w) (registry w) (trace w ++ calls fs data)).
Proof.
  induction fs as [|f fs IH]; intros w Hall.
  - destruct w. cbn. by rewrite app_nil_r.
  - apply Forall_cons in Hall as [Hf Hall]. cbn [for_each].
    rewrite bind_eq. unfold call at 1. rewrite bind_eq, Hf. cbn [log mret M_ret].
    cbn beta iota. rewrite IH by done. cbn [heap registry trace calls fmap list_fmap].
    by rewrite <- app_assoc.
Qed.

(** The loop of a dispatch up to the first callback that raises. *)
Lemma dispatch_loop_raises (data : bytes) (pre post : list callback) (c : callback)
    (e : exn) (w : World) :
  Forall (λ f, callback_stub env f data = None) pre →
  callback_stub env c data = Some e →
  for_each (pre ++ c :: post) (λ callback _, call env callback data) tt w =
    (Raise e, mkWorld (heap w) (registry w) (trace w ++ calls (pre ++ [c]) data)).
Proof.
  intros Hpre Hc. rewrite for_each_app, bind_eq, dispatch_loop_returns by done.
  cbn [for_each]. rewrite bind_eq. unfold call at 1. rewrite bind_eq, Hc.
  cbn [log raise heap registry trace]. unfold calls. rewrite fmap_app.
  by rewrite <- app_assoc.
Qed.

(** C6, as the code has it: after the callbacks [fs] were registered by
    [notify], in that order, on an attribute that had the callbacks [fs0],
    and when none of the registered callbacks raises on the payload, a
    notification calls each registered callback once for each of its
    registrations, in the order of registration, with the payload as it
    came. *)
Theorem notification_calls_in_order (self : loc) (fs0 fs : list callback) (data : bytes)
    (w : World) :
  has_attr w self "_notification_callbacks" (VFuncs fs0) →
  Forall (λ f, callback_stub env f data = None) (fs0 ++ fs) →
  ∃ w', (notify_all self fs ;; BLEAttribute._on_notification env self data) w = (Ok tt, w')
    ∧ has_attr w' self "_notification_callbacks" (VFuncs (fs0 ++ fs))
    ∧ trace w' = trace w ++ calls (fs0 ++ fs) data.
Proof.
  intros Hfs0 Hall. rewrite bind_eq.
  destruct (notify_all_eq self fs fs0 w Hfs0) as (w1 & -> & Hfs & _ & Ht).
  unfold BLEAttribute._on_notification.
  rewrite bind_eq, bind_eq, (getattr_has_attr _ _ _ _ Hfs). cbn [as_funcs mret M_ret].
  cbn beta iota. rewrite dispatch_loop_returns by done.
  eexists. split; [done|]. split.
  - by apply has_attr_app with (w := w1) (os := []); [cbn; rewrite app_nil_r|].
  - cbn [trace]. by rewrite Ht.
Qed.

(** C4, as the code has it: when a callback raises during a notification,
    the callbacks registered before it have been called, the exception
    comes out of [_on_notification], and the callbacks registered after it
    are not called. *)
Theorem notification_stops_at_raise (self : loc) (pre post : list callback) (c : callback)
    (e : exn) (data : bytes) (w : World) :
  has_attr w self "_notification_callbacks" (VFuncs (pre ++ c :: post)) →
  Forall (λ f, callback_stub env f data = None) pre →
  callback_stub env c data = Some e →
  BLEAttribute._on_notification env self data w =
    (Raise e, mkWorld (heap w) (registry w) (trace w ++ calls (pre ++ [c]) data)).
Proof.
  intros Hfs Hpre Hc. unfold BLEAttribute._on_notification.
  rewrite bind_eq, bind_eq, (getattr_has_attr _ _ _ _ Hfs). cbn [as_funcs mret M_ret].
  cbn beta iota. by apply dispatch_loop_raises.
Qed.

End properties.

(** ** The shortest form of a UUID *)

Lemma digit_mod (n : N) (k i : nat) :
  i < k →
  (((n mod 16 ^ N.of_nat k) / 16 ^ N.of_nat i) mod 16 = (n / 16 ^ N.of_nat i) mod 16)%N.
Proof.
  intros Hlt.
  replace k with (i + S (k - S i)) by lia.
  set (j := k - S i).
  rewrite Nat2N.inj_add, N.pow_add_r, Nat2N.inj_succ, N.pow_succ_r'.
  set (I := (16 ^ N.of_nat i)%N). set (J := (16 ^ N.of_nat j)%N).
  assert (I ≠ 0%N) as HI by (apply N.pow_nonzero; done).
  rewrite (N.Div0.div_mod n (I * (16 * J))) at 2.
  replace (I * (16 * J) * (n / (I * (16 * J))) + n mod (I * (16 * J)))%N
    with ((J * (n / (I * (16 * J))) * 16) * I + n mod (I * (16 * J)))%N by lia.
  rewrite N.div_add_l by done.
  rewrite N.add_comm. rewrite N.Div0.mod_add. done.
Qed.

Lemma hex_fixed_mod (w : nat) : ∀ (k : nat) (n : N),
  w ≤ k → hex_fixed w (n mod 16 ^ N.of_nat k) = hex_fixed w n.
Proof.
  induction w as [|w IH]; intros k n Hle; [done|].
  cbn [hex_fixed]. rewrite digit_mod by lia. by rewrite IH by lia.
Qed.

Lemma hex_fixed_app (a b : nat) (n : N) :
  hex_fixed (a + b) n = hex_fixed a (n / 16 ^ N.of_nat b) +:+ hex_fixed b n.
Proof.
  induction a as [|a IH]; [done|].
  cbn [Nat.add hex_fixed String.append]. rewrite IH. f_equal.
  rewrite N.Div0.div_div. rewrite <- N.pow_add_r, <- Nat2N.inj_add.
  by rewrite (Nat.add_comm b a).
Qed.

(** The text of a UUID of the Bluetooth base. *)
Lemma UUID_str_short (u : N) :
  is_short_uuid u = true →
  UUID_str u = "0000" +:+ hex_fixed 4 (short_segment u) +:+ "-0000-1000-8000-00805f9b34fb"
  ∧ slice 4 8 (UUID_str u) = hex_fixed 4 (short_segment u).
Proof.
  unfold is_short_uuid. intros [Hhigh Hlow]%andb_prop.
  apply N.eqb_eq in Hhigh, Hlow.
  assert (hex_fixed 32 u =
            "0000" +:+ hex_fixed 4 (short_segment u) +:+ "00001000800000805f9b34fb") as Hhex.
  { change 32 with (4 + (4 + 24)). rewrite !hex_fixed_app.
    change (16 ^ N.of_nat (4 + 24))%N with (2 ^ 112)%N. rewrite Hhigh.
    rewrite <- (hex_fixed_mod 4 4 (u / _)), <- (hex_fixed_mod 24 24 u) by done.
    change (16 ^ N.of_nat 24)%N with (2 ^ 96)%N. rewrite Hlow.
    change (16 ^ N.of_nat 4)%N with (2 ^ 16)%N. done. }
  unfold UUID_str. cbn zeta. rewrite Hhex. cbn [hex_fixed].
  generalize (hex_digit (short_segment u / 16 ^ N.of_nat 3 mod 16)).
  generalize (hex_digit (short_segment u / 16 ^ N.of_nat 2 mod 16)).
  generalize (hex_digit (short_segment u / 16 ^ N.of_nat 1 mod 16)).
  generalize (hex_digit (short_segment u / 16 ^ N.of_nat 0 mod 16)).
  done.
Qed.

(** C9: for a UUID of the Bluetooth base, only its 16-bit segment varying,
    [shortest_uuid] returns the four hexadecimal digits of that segment,
    which are the characters 4 to 7 of its text; for any other UUID it
    returns the whole text. *)
Theorem shortest_uuid_canonical (self : loc) (u : N) (w : World) :
  has_attr w self "uuid" (VUUID u) →
  (is_short_uuid u = true →
   BLEAttribute.shortest_uuid self w = (Ok (hex_fixed 4 (short_segment u)), w)
   ∧ UUID_str u =
       "0000" +:+ hex_fixed 4 (short_segment u) +:+ "-0000-1000-8000-00805f9b34fb")
  ∧ (is_short_uuid u = false →
     BLEAttribute.shortest_uuid self w = (Ok (UUID_str u), w)).
Proof.
  intros Hu. unfold BLEAttribute.shortest_uuid.
  rewrite !bind_eq, (getattr_has_attr _ _ _ _ Hu). cbn [as_uuid mret M_ret].
  cbn beta iota. split; intros Hshort; rewrite Hshort.
  - rewrite !bind_eq, (getattr_has_attr _ _ _ _ Hu). cbn [as_uuid mret M_ret].
    cbn beta iota. destruct (UUID_str_short u Hshort) as [Hstr ->]. done.
  - rewrite !bind_eq, (getattr_has_attr _ _ _ _ Hu). by cbn [as_uuid mret M_ret].
Qed.

(** ** The properties on the examples *)

Import Examples.

Ltac attr_here := eexists; split; vm_compute; reflexivity.

(** C1, as the code has it: on the pairs [(10, UuidA), (11, UuidB),
    (12, UuidA)] discovered over [10..12], the loop fills the table with
    the descriptors of handles 10 and 12 under [UuidA] and of handle 11 under
    [UuidB], and [_discover_descriptors] returns the descriptor of handle 12
    in place of the table. *)
Theorem discovery_returns_last_descriptor :
  let run := BLECharacteristic._discover_descriptors env_three 0 (world_of_characteristic 9 12) in
  let loop :=
    for_each [mkRaw 10 UuidA; mkRaw 11 UuidB; mkRaw 12 UuidA]
      (BLECharacteristic.loop_body env_three 0) (∅, None)
      (world_discovering 0 10 12 (world_of_characteristic 9 12)) in
  run.1 = Ok (VRef 3)
  ∧ has_attr run.2 1 "value_handle" (VInt 10)
  ∧ has_attr run.2 2 "value_handle" (VInt 11)
  ∧ has_attr run.2 3 "value_handle" (VInt 12)
  ∧ loop.2 = run.2
  ∧ ∃ descriptors,
      loop.1 = Ok (descriptors, Some 3)
      ∧ descriptors !! uuidA = Some [1; 3]
      ∧ descriptors !! uuidB = Some [2]
      ∧ dom descriptors = {[uuidA; uuidB]}.
Proof.
  cbn zeta. split; [by vm_compute|]. do 3 (split; [attr_here|]).
  split; [by vm_compute|]. eexists. split; [vm_compute; reflexivity|].
  repeat split; by vm_compute.
Qed.

(** The same on the characteristic of the third example, whose descriptor
    of handle 7 raises "attribute not found": one descriptor is returned,
    the one of handle 8, constructed after the failure. *)
Lemma discovery_goes_on_after_not_found :
  let run :=
    BLECharacteristic._discover_descriptors (env_raising_at_7 not_found) 0
      (world_of_characteristic 5 8) in
  run.1 = Ok (VRef 3) ∧ has_attr run.2 3 "value_handle" (VInt 8).
Proof. cbn zeta. split; [by vm_compute|attr_here]. Qed.

(** An error that the call of [discover_descriptors] itself raises is
    outside the [try]: it comes out of [_discover_descriptors]. *)
Lemma discovery_call_error_comes_out :
  (BLECharacteristic._discover_descriptors env_discovery_not_found 0
     (world_of_characteristic 5 8)).1 = Raise not_found.
Proof. by vm_compute. Qed.

(** A [ValueError] of [UUID] comes out, and the pairs after it are not
    visited. *)
Lemma discovery_ValueError_comes_out :
  let run := BLECharacteristic._discover_descriptors env_bad_uuid 0 (world_of_characteristic 5 8) in
  run.1 = Raise (OtherError "ValueError")
  ∧ trace run.2 = [discover_descriptors_call 0 6 8; register_handle_call 0 6 1].
Proof. cbn zeta. split; by vm_compute. Qed.


(** C4, against the claim: of two callbacks, the first raising, the second
    is not called. *)
Lemma later_callback_is_not_called :
  let run := two_callbacks_notified env_callback_raises empty_world in
  run.1 = Raise (OtherError "Exception")
  ∧ trace run.2 = [register_handle_call 0 9 0; callback_call 0 [x01; x02]]
  ∧ callback_call 1 [x01; x02] ∉ trace run.2.
Proof.
  cbn zeta. split; [by vm_compute|].
  assert (trace (two_callbacks_notified env_callback_raises empty_world).2 =
            [register_handle_call 0 9 0; callback_call 0 [x01; x02]]) as Ht
    by (by vm_compute).
  split; [done|]. rewrite Ht. intros H.
  repeat (apply elem_of_cons in H as [H|H]; [discriminate H|]).
  by apply elem_of_nil in H.
Qed.

(** C6, against the claim: of the callbacks 1, 0 and 1 again, the one
    numbered 0 raising, the callback 1 is called once, not twice. *)
Lemma raising_callback_cuts_the_dispatch :
  let run := registered_twice_notified env_callback_raises empty_world in
  has_attr run.2 0 "_notification_callbacks" (VFuncs [1; 0; 1])
  ∧ run.1 = Raise (OtherError "Exception")
  ∧ trace run.2 =
      [register_handle_call 0 9 0; callback_call 1 [x01; x02]; callback_call 0 [x01; x02]].
Proof. cbn zeta. split; [attr_here|]. split; by vm_compute. Qed.

(** The example of two callbacks that return. *)
Lemma two_callbacks_are_called :
  let run := two_callbacks_notified env_three empty_world in
  run.1 = Ok tt
  ∧ trace run.2 =
      [register_handle_call 0 9 0; callback_call 0 [x01; x02]; callback_call 1 [x01; x02]].
Proof. cbn zeta. split; by vm_compute. Qed.

(** *** Instances of the theorems *)


Lemma read_write_delegate_witness :
  let w := world_constructed 0 10 uuidA empty_world in
  BLEAttribute.read env_three 0 w =
    (Ok [x01; x02], mkWorld (heap w) (registry w) (trace w ++ [read_handle_call 0 10]))
  ∧ BLEAttribute.write env_three 0 [xab] false w =
      (Ok tt, mkWorld (heap w) (registry w) (trace w ++ [write_handle_call 0 10 [xab] false])).
Proof.
  cbn zeta.
  apply (read_write_delegate env_three 0 0 10 [xab] false
           (world_constructed 0 10 uuidA empty_world)); attr_here.
Defined.

Lemma empty_range_no_discovery_witness :
  (9 + 1 > 9)%Z
  ∧ BLECharacteristic._discover_descriptors env_three 0 (world_of_characteristic 9 9) =
      (Ok (VDict ∅), world_of_characteristic 9 9).
Proof.
  split; [lia|].
  apply (empty_range_no_discovery env_three 0 9 9 (world_of_characteristic 9 9));
    [attr_here | attr_here | lia].
Defined.

Lemma no_descriptor_is_unbound_witness :
  (5 + 1 ≤ 8)%Z
  ∧ discover_descriptors_stub env_none_constructed 0 (5 + 1) 8 =
      Ok [mkRaw 6 UuidA; mkRaw 7 UuidB]
  ∧ (∃ w', BLECharacteristic._discover_descriptors env_none_constructed 0
             (world_of_characteristic 5 8) = (Raise UnboundLocalError, w')
           ∧ registry w' = registry (world_of_characteristic 5 8))
  ∧ ∀ (h : Z) (u : N) (p : Z) (w0 : World),
      ∃ e w1, BLECharacteristic.new env_none_constructed 0 h 5 8 u p w0 = (Raise e, w1).
Proof.
  split; [lia|]. split; [reflexivity|].
  apply (no_descriptor_is_unbound env_none_constructed 0 0 5 8
           [mkRaw 6 UuidA; mkRaw 7 UuidB] (world_of_characteristic 5 8));
    [attr_here | attr_here | attr_here | lia | reflexivity |].
  repeat (apply Forall_cons; split; [eexists; reflexivity|]).
  by apply Forall_nil.
Defined.


Lemma notification_calls_in_order_witness :
  let w := world_constructed 0 9 uuidA empty_world in
  ∃ w', (notify_all 0 [3; 5; 3] ;; BLEAttribute._on_notification env_three 0 [x01; x02]) w
          = (Ok tt, w')
    ∧ has_attr w' 0 "_notification_callbacks" (VFuncs ([] ++ [3; 5; 3]))
    ∧ trace w' = trace w ++ calls ([] ++ [3; 5; 3]) [x01; x02].
Proof.
  cbn zeta.
  apply (notification_calls_in_order env_three 0 [] [3; 5; 3] [x01; x02]
           (world_constructed 0 9 uuidA empty_world)); [attr_here|].
  repeat (apply Forall_cons; split; [reflexivity|]). by apply Forall_nil.
Defined.

Lemma notification_stops_at_raise_witness :
  let w :=
    mkWorld [set_field "_notification_callbacks" (VFuncs [1; 0; 2])
               (attribute_object cBLEDescriptor 0 9 uuidA)] ∅ [] in
  callback_stub env_callback_raises 0 [x01; x02] = Some (OtherError "Exception")
  ∧ BLEAttribute._on_notification env_callback_raises 0 [x01; x02] w =
      (Raise (OtherError "Exception"),
       mkWorld (heap w) (registry w) (trace w ++ calls ([1] ++ [0]) [x01; x02])).
Proof.
  cbn zeta. split; [reflexivity|].
  apply (notification_stops_at_raise env_callback_raises 0 [1] [2] 0
           (OtherError "Exception") [x01; x02]); [attr_here | | reflexivity].
  repeat (apply Forall_cons; split; [reflexivity|]). by apply Forall_nil.
Defined.

Lemma shortest_uuid_canonical_witness :
  let w := world_constructed 0 10 uuidA empty_world in
  is_short_uuid uuidA = true
  ∧ BLEAttribute.shortest_uuid 0 w = (Ok "2902", w)
  ∧ UUID_str uuidA = "00002902-0000-1000-8000-00805f9b34fb".
Proof.
  cbn zeta. split; [by vm_compute|].
  apply (proj1 (shortest_uuid_canonical 0 uuidA (world_constructed 0 10 uuidA empty_world)
                  ltac:(attr_here))).
  by vm_compute.
Defined.

(** * Further properties *)

Section further_properties.
Context (env : Env).

(** ** Construction of a descriptor *)

(** X1: when [BLEDescriptor(d, h, u)] returns, the descriptor is a new
    object at the end of the store, the objects that were there are as they
    were, and the new object holds the device, the handle as its value
    handle, the UUID and two empty lists of callbacks, and nothing else. *)
Theorem descriptor_construction_stores (d : device_id) (h : Z) (u : N) (w w' : World)
    (a : loc) :
  BLEDescriptor.new env d h u w = (Ok a, w') →
  a = length (heap w)
  ∧ (∃ o, heap w' = heap w ++ [o] ∧ obj_class o = cBLEDescriptor
        ∧ dom (obj_dict o) =
            {["device"; "value_handle"; "uuid"; "_notification_callbacks";
              "_indication_callbacks"]})
  ∧ has_attr w' a "device" (VDevice d)
  ∧ has_attr w' a "value_handle" (VInt h)
  ∧ has_attr w' a "uuid" (VUUID u)
  ∧ has_attr w' a "_notification_callbacks" (VFuncs [])
  ∧ has_attr w' a "_indication_callbacks" (VFuncs []).
Proof.
  rewrite BLEDescriptor_new_eq.
  destruct (register_handle_stub env d h); [done|]. intros [= <- <-].
  split; [done|]. split.
  - eexists. split; [done|]. split; [done|].
    unfold attribute_object, partial_object, set_field. cbn [obj_dict].
    rewrite !dom_insert_L, dom_empty_L. set_solver.
  - repeat split; (eexists; split; [apply list_lookup_middle; done|]);
      apply attribute_object_attrs.
Qed.

(** X2: [BLEDescriptor(d, h, u)] makes one call of [register_handle], for
    the new object, and returns unless that call raises; an exception of
    [register_handle] comes out unchanged, and the object is then left
    without its lists of callbacks, which are assigned after the call. *)
Theorem descriptor_construction_failure (d : device_id) (h : Z) (u : N) (w : World) :
  let run := BLEDescriptor.new env d h u w in
  trace run.2 = trace w ++ [register_handle_call d h (length (heap w))]
  ∧ (register_handle_stub env d h = None → run.1 = Ok (length (heap w)))
  ∧ ∀ e, register_handle_stub env d h = Some e →
      run.1 = Raise e
      ∧ registry run.2 = registry w
      ∧ ∀ v, ¬ has_attr run.2 (length (heap w)) "_notification_callbacks" v.
Proof.
  cbn zeta. rewrite BLEDescriptor_new_eq.
  destruct (register_handle_stub env d h) as [e|]; cbn [fst snd].
  - split; [done|]. split; [done|]. intros ? [= <-]. split; [done|]. split; [done|].
    intros v (o & Ho & Hv). cbn [world_failed heap] in Ho.
    rewrite list_lookup_middle in Ho by done. injection Ho as <-.
    unfold partial_object in Hv. revert Hv. by dict_lookup.
  - by repeat split.
Qed.

(** ** The frame of the discovery *)

Lemma loop_body_frame (self : loc) (d : device_id) (p : raw_descriptor)
    (vars : BLECharacteristic.locals) (w w' : World) (r : result BLECharacteristic.locals) :
  has_attr w self "device" (VDevice d) →
  BLECharacteristic.loop_body env self p vars w = (r, w') →
  (∃ os, heap w' = heap w ++ os ∧ Forall (λ o, obj_class o = cBLEDescriptor) os)
  ∧ (∃ evs, trace w' = trace w ++ evs
        ∧ Forall (λ ev, ∃ a, ev = register_handle_call d (rd_handle p) a) evs)
  ∧ (∀ k, k ≠ (d, rd_handle p) → registry w' !! k = registry w !! k).
Proof.
  intros Hd. destruct vars as [ds desc]. rewrite (loop_body_eq _ _ d) by done.
  assert (∀ u, let w1 := world_failed d (rd_handle p) u w in
            (∃ os, heap w1 = heap w ++ os ∧ Forall (λ o, obj_class o = cBLEDescriptor) os)
            ∧ (∃ evs, trace w1 = trace w ++ evs
                 ∧ Forall (λ ev, ∃ a, ev = register_handle_call d (rd_handle p) a) evs)
            ∧ (∀ k, k ≠ (d, rd_handle p) → registry w1 !! k = registry w !! k)) as Hfailed.
  { intros u. cbn. split; [|split].
    - eexists. split; [done|]. by apply Forall_singleton.
    - eexists. split; [done|]. apply Forall_singleton. by eexists.
    - done. }
  assert ((∃ os, heap w = heap w ++ os ∧ Forall (λ o, obj_class o = cBLEDescriptor) os)
          ∧ (∃ evs, trace w = trace w ++ evs
               ∧ Forall (λ ev, ∃ a, ev = register_handle_call d (rd_handle p) a) evs)
          ∧ (∀ k, k ≠ (d, rd_handle p) → registry w !! k = registry w !! k)) as Hsame.
  { split; [|split]; [exists []; by rewrite app_nil_r..|done]. }
  destruct (UUID_stub env (rd_uuid p)) as [u|e].
  - destruct (register_handle_stub env d (rd_handle p)) as [e|].
    + destruct (is_RuntimeError e); intros [= <- <-]; apply Hfailed.
    + intros [= <- <-]. cbn. split; [|split].
      * eexists. split; [done|]. by apply Forall_singleton.
      * eexists. split; [done|]. apply Forall_singleton. by eexists.
      * intros k Hk. by rewrite lookup_insert_ne.
  - destruct (is_RuntimeError e); by intros [= <- <-].
Qed.

(** Whatever the loop does, it only adds descriptors to the store, only
    calls [register_handle], for discovered handles, and only changes the
    registry at these handles. *)
Lemma loop_frame (self : loc) (d : device_id) (pairs : list raw_descriptor) :
  ∀ (vars : BLECharacteristic.locals) (w w' : World) (r : result BLECharacteristic.locals),
  has_attr w self "device" (VDevice d) →
  for_each pairs (BLECharacteristic.loop_body env self) vars w = (r, w') →
  (∃ os, heap w' = heap w ++ os ∧ Forall (λ o, obj_class o = cBLEDescriptor) os)
  ∧ (∃ evs, trace w' = trace w ++ evs
        ∧ Forall (λ ev, ∃ p a, p ∈ pairs ∧ ev = register_handle_call d (rd_handle p) a) evs)
  ∧ (∀ k, (∀ p, p ∈ pairs → k ≠ (d, rd_handle p)) → registry w' !! k = registry w !! k).
Proof.
  induction pairs as [|p pairs IH]; intros vars w w' r Hd.
  - intros [= <- <-]. split; [|split]; [exists []; by rewrite app_nil_r..|done].
  - cbn [for_each]. rewrite bind_eq.
    destruct (BLECharacteristic.loop_body env self p vars w) as [r1 w1] eqn:Hbody.
    destruct (loop_body_frame _ _ _ _ _ _ _ Hd Hbody)
      as ((os1 & Hh1 & Hos1) & (evs1 & Ht1 & Hevs1) & Hr1).
    assert (Forall (λ ev, ∃ q a, q ∈ p :: pairs ∧ ev = register_handle_call d (rd_handle q) a)
              evs1) as Hevs1'.
    { eapply Forall_impl; [done|]. intros ev [a ->]. exists p, a. split; [left|done]. }
    destruct r1 as [vars1|e].
    + intros Hrest.
      destruct (IH vars1 w1 w' r) as ((os2 & Hh2 & Hos2) & (evs2 & Ht2 & Hevs2) & Hr2);
        [by eapply has_attr_app|done|].
      split; [|split].
      * exists (os1 ++ os2). rewrite Hh2, Hh1, app_assoc. split; [done|]. by apply Forall_app.
      * exists (evs1 ++ evs2). rewrite Ht2, Ht1, app_assoc. split; [done|].
        apply Forall_app. split; [done|].
        eapply Forall_impl; [done|]. intros ev (q & a & Hq & ->).
        exists q, a. split; [by right|done].
      * intros k Hk. rewrite Hr2, Hr1; [done|..].
        -- apply Hk. left.
        -- intros q Hq. apply Hk. by right.
    + intros [= <- <-]. split; [by exists os1|]. split; [by exists evs1|].
      intros k Hk. apply Hr1, Hk. left.
Qed.

Lemma has_attr_world_discovering (self : loc) (name : string) (v : value) (d : device_id)
    (s e : Z) (w : World) :
  has_attr w self name v → has_attr (world_discovering d s e w) self name v.
Proof.
  intros H. eapply has_attr_app with (os := []); [|exact H]. cbn. by rewrite app_nil_r.
Qed.

(** X3: on a range that is not empty, and whatever comes of it, the
    discovery calls [discover_descriptors] once, first, with
    [value_handle + 1] and [end_handle]; every later call is a
    [register_handle] of the same device for the handle of a discovered
    pair: nothing is read or written and no callback runs. *)
Theorem discovery_calls (self : loc) (d : device_id) (vh eh : Z)
    (pairs : list raw_descriptor) (w : World) :
  has_attr w self "device" (VDevice d) →
  has_attr w self "value_handle" (VInt vh) →
  has_attr w self "end_handle" (VInt eh) →
  (vh + 1 ≤ eh)%Z →
  discover_descriptors_stub env d (vh + 1) eh = Ok pairs →
  ∃ evs,
    trace (BLECharacteristic._discover_descriptors env self w).2 =
      trace w ++ discover_descriptors_call d (vh + 1) eh :: evs
    ∧ Forall (λ ev, ∃ p a, p ∈ pairs ∧ ev = register_handle_call d (rd_handle p) a) evs.
Proof.
  intros Hd Hv He Hle Hstub. rewrite (discover_descriptors_eq _ _ d vh eh), Hstub by done.
  destruct (for_each pairs _ _ _) as [r w'] eqn:Hloop.
  destruct (loop_frame self d pairs _ _ _ _ (has_attr_world_discovering _ _ _ d _ _ _ Hd) Hloop)
    as (_ & (evs & Ht & Hevs) & _).
  exists evs. split; [|done].
  cbn [world_discovering trace] in Ht. rewrite <- app_assoc in Ht.
  destruct r as [vars|e]; [destruct (vars.2)|]; exact Ht.
Qed.

(** X4: on a range that is not empty, and whatever comes of it, the
    discovery leaves every object of the store as it was, adds only
    descriptors, and changes the registry at most at the handles of the
    discovered pairs, for its own device. *)
Theorem discovery_frame (self : loc) (d : device_id) (vh eh : Z)
    (pairs : list raw_descriptor) (w : World) :
  has_attr w self "device" (VDevice d) →
  has_attr w self "value_handle" (VInt vh) →
  has_attr w self "end_handle" (VInt eh) →
  (vh + 1 ≤ eh)%Z →
  discover_descriptors_stub env d (vh + 1) eh = Ok pairs →
  let w' := (BLECharacteristic._discover_descriptors env self w).2 in
  (∃ os, heap w' = heap w ++ os ∧ Forall (λ o, obj_class o = cBLEDescriptor) os)
  ∧ (∀ k, (∀ p, p ∈ pairs → k ≠ (d, rd_handle p)) → registry w' !! k = registry w !! k).
Proof.
  intros Hd Hv He Hle Hstub. cbn zeta.
  rewrite (discover_descriptors_eq _ _ d vh eh), Hstub by done.
  destruct (for_each pairs _ _ _) as [r w'] eqn:Hloop.
  destruct (loop_frame self d pairs _ _ _ _ (has_attr_world_discovering _ _ _ d _ _ _ Hd) Hloop)
    as (Hheap & _ & Hreg).
  destruct r as [vars|e]; [destruct (vars.2)|]; by split.
Qed.

(** X5: on a range that is not empty, an exception raised by the call of
    [discover_descriptors] itself comes out of [_discover_descriptors]
    unchanged, whatever its class, after that one call and with nothing
    constructed or registered. *)
Theorem discovery_call_error (self : loc) (d : device_id) (vh eh : Z) (e : exn) (w : World) :
  has_attr w self "device" (VDevice d) →
  has_attr w self "value_handle" (VInt vh) →
  has_attr w self "end_handle" (VInt eh) →
  (vh + 1 ≤ eh)%Z →
  discover_descriptors_stub env d (vh + 1) eh = Raise e →
  BLECharacteristic._discover_descriptors env self w =
    (Raise e, mkWorld (heap w) (registry w)
                (trace w ++ [discover_descriptors_call d (vh + 1) eh])).
Proof.
  intros Hd Hv He Hle Hstub. by rewrite (discover_descriptors_eq _ _ d vh eh), Hstub.
Qed.

(** X6: on a range that is not empty, when the construction of the
    descriptor of a pair [p] succeeds, that of each pair before it succeeds
    or raises a [RuntimeError], and that of each pair after it raises a
    [RuntimeError], [_discover_descriptors] returns the descriptor of [p],
    which the registry holds under the handle of [p]. *)
Theorem discovery_returns_last_constructed (self : loc) (d : device_id) (vh eh : Z)
    (pre post : list raw_descriptor) (p : raw_descriptor) (w : World) :
  has_attr w self "device" (VDevice d) →
  has_attr w self "value_handle" (VInt vh) →
  has_attr w self "end_handle" (VInt eh) →
  (vh + 1 ≤ eh)%Z →
  discover_descriptors_stub env d (vh + 1) eh = Ok (pre ++ p :: post) →
  Forall (constructed_or_RuntimeError env d) pre →
  construction_error env d p = None →
  Forall (λ q, ∃ m, construction_error env d q = Some (RuntimeError m)) post →
  ∃ a w',
    BLECharacteristic._discover_descriptors env self w = (Ok (VRef a), w')
    ∧ has_attr w' a "value_handle" (VInt (rd_handle p))
    ∧ registry w' !! (d, rd_handle p) = Some a.
Proof.
  intros Hd Hv He Hle Hstub Hpre Hp Hpost.
  rewrite (discover_descriptors_eq _ _ d vh eh), Hstub by done.
  rewrite for_each_app, bind_eq.
  destruct (loop_swallows_RuntimeError env self d pre (∅, None) _
              (has_attr_world_discovering _ _ _ d (vh + 1) eh _ Hd) Hpre)
    as ([ds desc] & w1 & -> & Hd1 & _ & _).
  cbn [for_each]. rewrite bind_eq, (loop_body_eq _ _ d) by done.
  unfold construction_error in Hp.
  destruct (UUID_stub env (rd_uuid p)) as [u|]; [|done]. rewrite Hp.
  pose proof (has_attr_world_constructed self _ _ d (rd_handle p) u w1 Hd1) as Hd2.
  destruct (loop_all_RuntimeError env self d post
              (bucket_add u (length (heap w1)) ds, Some (length (heap w1))) _ Hd2 Hpost)
    as (w' & Hloop & Hreg).
  rewrite Hloop. cbn [snd]. exists (length (heap w1)), w'. split; [done|].
  destruct (loop_frame self d post _ _ _ _ Hd2 Hloop) as ((os & Hh & _) & _ & _).
  split.
  - apply has_attr_app with (w := world_constructed d (rd_handle p) u w1) (os := os); [done|].
    eexists. split; [apply list_lookup_middle; done|]. apply attribute_object_attrs.
  - rewrite Hreg. cbn [world_constructed registry]. by rewrite lookup_insert_eq.
Qed.

(** ** The table of the descriptors *)

Lemma constructed_as_app (d : device_id) (w w' : World) (os : list Obj)
    (ps : list raw_descriptor) (made : list (loc * N)) :
  heap w' = heap w ++ os →
  Forall2 (constructed_as env d w) ps made → Forall2 (constructed_as env d w') ps made.
Proof.
  intros Hh HF. eapply Forall2_impl; [exact HF|]. intros p x [Hu Hx]. split; [done|].
  rewrite Hh. by apply lookup_app_l_Some.
Qed.

(** The loop from any local variables: the descriptors it constructs, in
    order, are appended to the buckets of their UUIDs. *)
Lemma loop_groups (self : loc) (d : device_id) (pairs : list raw_descriptor) :
  ∀ (ds0 : gmap N (list loc)) (desc0 : option loc) (w : World),
  has_attr w self "device" (VDevice d) →
  Forall (constructed_or_RuntimeError env d) pairs →
  (∀ u, ds0 !! u ≠ Some []) →
  ∃ (made : list (loc * N)) (ds : gmap N (list loc)) (w' : World),
    for_each pairs (BLECharacteristic.loop_body env self) (ds0, desc0) w =
      (Ok (ds, from_option Some desc0 (last made.*1)), w')
    ∧ (∃ os, heap w' = heap w ++ os)
    ∧ Forall2 (constructed_as env d w') (filter (λ p, constructs env d p = true) pairs) made
    ∧ StronglySorted lt made.*1
    ∧ Forall (λ x, length (heap w) ≤ x.1) made
    ∧ (∀ u, default [] (ds !! u) = default [] (ds0 !! u) ++ (filter (λ x, x.2 = u) made).*1)
    ∧ (∀ u, ds !! u ≠ Some []).
Proof.
  induction pairs as [|p pairs IH]; intros ds0 desc0 w Hd Hall Hne.
  - exists [], ds0, w. cbn. split; [done|]. split; [exists []; by rewrite app_nil_r|].
    split; [constructor|]. split; [constructor|]. split; [constructor|].
    split; [|done]. intros u. by rewrite app_nil_r.
  - apply Forall_cons in Hall as [Hp Hall].
    cbn [for_each]. rewrite bind_eq, (loop_body_eq _ _ d) by done.
    rewrite filter_cons.
    unfold constructed_or_RuntimeError, construction_error in Hp.
    destruct (decide (constructs env d p = true)) as [Hc|Hc];
      unfold constructs, construction_error in Hc;
      (destruct (UUID_stub env (rd_uuid p)) as [u0|e] eqn:Hu;
       [destruct (register_handle_stub env d (rd_handle p)) as [e|] eqn:Hr|]);
      try done.
    + assert (∀ u, bucket_add u0 (length (heap w)) ds0 !! u ≠ Some []) as Hne1.
      { intros u. unfold bucket_add. destruct (ds0 !! u0) as [b|] eqn:Hb.
        - destruct (decide (u0 = u)) as [<-|Hneq].
          + rewrite lookup_insert_eq. intros [= Hx]. by destruct b.
          + by rewrite lookup_insert_ne.
        - destruct (decide (u0 = u)) as [<-|Hneq].
          + by rewrite lookup_insert_eq.
          + by rewrite lookup_insert_ne. }
      destruct (IH (bucket_add u0 (length (heap w)) ds0) (Some (length (heap w)))
                  (world_constructed d (rd_handle p) u0 w))
        as (made & ds & w' & Hrun & (os & Hh) & Hmade & Hsorted & Hfresh & Hds & Hne');
        [by apply has_attr_world_constructed|done..|].
      exists ((length (heap w), u0) :: made), ds, w'.
      cbn [world_constructed heap] in Hh, Hfresh.
      split.
      { rewrite Hrun. do 3 f_equal. rewrite fmap_cons, last_cons.
        by destruct (last made.*1). }
      split; [eexists; by rewrite Hh, <- app_assoc|].
      split.
      { constructor; [|done]. split; [done|]. cbn [fst snd]. rewrite Hh.
        apply lookup_app_l_Some. by apply list_lookup_middle. }
      split.
      { cbn [fmap list_fmap fst]. apply StronglySorted_cons. split; [|done].
        apply Forall_fmap. eapply Forall_impl; [done|]. intros x Hx. cbn.
        rewrite length_app in Hx. cbn in Hx. lia. }
      split.
      { constructor; [done|]. eapply Forall_impl; [done|]. intros x Hx.
        rewrite length_app in Hx. lia. }
      split; [|done]. intros u. rewrite Hds, filter_cons. cbn [snd].
      unfold bucket_add. destruct (decide (u0 = u)) as [<-|Hneq].
      * rewrite fmap_cons. cbn [fst].
        destruct (ds0 !! u0) as [b|]; rewrite lookup_insert_eq; cbn [default id];
          by rewrite <- ?app_assoc.
      * destruct (ds0 !! u0) as [b|]; by rewrite lookup_insert_ne.
    + rewrite Hp.
      destruct (IH ds0 desc0 (world_failed d (rd_handle p) u0 w))
        as (made & ds & w' & Hrun & (os & Hh) & Hmade & Hsorted & Hfresh & Hds & Hne');
        [by apply has_attr_world_failed|done..|].
      exists made, ds, w'. split; [done|]. split.
      { eexists. rewrite Hh. cbn [world_failed heap]. by rewrite <- app_assoc. }
      split; [done|]. split; [done|]. split; [|done].
      eapply Forall_impl; [done|]. intros x Hx. cbn [world_failed heap] in Hx.
      rewrite length_app in Hx. lia.
    + rewrite Hp. by apply IH.
Qed.

(** X7: a loop over pairs whose descriptors are constructed or raise a
    [RuntimeError] ends with [desc] the last descriptor constructed and with
    [descriptors] grouping the constructed descriptors by UUID: the
    descriptors [made] are those of the pairs that construct, in the order
    of discovery, each new and as its constructor left it, and the bucket of
    a UUID lists the descriptors of that UUID in that order; a UUID of no
    descriptor has no bucket. *)
Theorem loop_groups_by_uuid (self : loc) (d : device_id) (pairs : list raw_descriptor)
    (w : World) :
  has_attr w self "device" (VDevice d) →
  Forall (constructed_or_RuntimeError env d) pairs →
  ∃ (made : list (loc * N)) (ds : gmap N (list loc)) (w' : World),
    for_each pairs (BLECharacteristic.loop_body env self) (∅, None) w =
      (Ok (ds, last made.*1), w')
    ∧ Forall2 (constructed_as env d w') (filter (λ p, constructs env d p = true) pairs) made
    ∧ StronglySorted lt made.*1
    ∧ Forall (λ x, length (heap w) ≤ x.1) made
    ∧ ∀ u, ds !! u =
        let bucket := (filter (λ x, x.2 = u) made).*1 in
        if decide (bucket = []) then None else Some bucket.
Proof.
  intros Hd Hall.
  destruct (loop_groups self d pairs ∅ None w Hd Hall)
    as (made & ds & w' & Hrun & _ & Hmade & Hsorted & Hfresh & Hds & Hne); [done|].
  exists made, ds, w'. split.
  { rewrite Hrun. by destruct (last made.*1). }
  do 3 (split; [done|]). intros u. cbn zeta. specialize (Hds u). specialize (Hne u).
  rewrite lookup_empty in Hds. cbn [default app] in Hds. rewrite <- Hds.
  destruct (ds !! u) as [b|]; cbn [default id].
  - rewrite decide_False; [done|]. by intros ->.
  - by rewrite decide_True.
Qed.

(** ** Indications *)

Lemma indicate_eq (self : loc) (f : callback) (fs : list callback) (w : World) :
  has_attr w self "_indication_callbacks" (VFuncs fs) →
  ∃ w', BLEAttribute.indicate self f w = (Ok tt, w')
    ∧ has_attr w' self "_indication_callbacks" (VFuncs (fs ++ [f]))
    ∧ registry w' = registry w ∧ trace w' = trace w.
Proof.
  intros Hfs. unfold BLEAttribute.indicate.
  rewrite !bind_eq, (getattr_has_attr _ _ _ _ Hfs). cbn [as_funcs mret M_ret].
  cbn beta iota. destruct Hfs as (o & Ho & _).
  rewrite (setattr_eq _ _ _ _ _ Ho). eexists. split; [done|].
  split; [|done]. eexists. split.
  - cbn [heap]. apply list_lookup_insert_eq. by eapply lookup_lt_Some.
  - by dict_lookup.
Qed.

Lemma indicate_all_eq (self : loc) (fs : list callback) :
  ∀ (fs0 : list callback) (w : World),
  has_attr w self "_indication_callbacks" (VFuncs fs0) →
  ∃ w', indicate_all self fs w = (Ok tt, w')
    ∧ has_attr w' self "_indication_callbacks" (VFuncs (fs0 ++ fs))
    ∧ registry w' = registry w ∧ trace w' = trace w.
Proof.
  unfold indicate_all. induction fs as [|f fs IH]; intros fs0 w Hfs0.
  - exists w. by rewrite app_nil_r.
  - cbn [for_each]. rewrite bind_eq.
    destruct (indicate_eq self f fs0 w Hfs0) as (w1 & -> & Hfs1 & Hr1 & Ht1).
    destruct (IH (fs0 ++ [f]) w1 Hfs1) as (w' & Hrun & Hfs' & Hr' & Ht').
    exists w'. rewrite <- app_assoc in Hfs'. repeat split; [done..| |]; congruence.
Qed.

(** X8: after the callbacks [fs] were registered by [indicate], in that
    order, on an attribute that had the callbacks [fs0], and when none of
    them raises on the payload, an indication calls each of them once for
    each of its registrations, in the order of registration, with the
    payload as it came; the registry is left as it was. *)
Theorem indication_calls_in_order (self : loc) (fs0 fs : list callback) (data : bytes)
    (w : World) :
  has_attr w self "_indication_callbacks" (VFuncs fs0) →
  Forall (λ f, callback_stub env f data = None) (fs0 ++ fs) →
  ∃ w', (indicate_all self fs ;; BLEAttribute._on_indication env self data) w = (Ok tt, w')
    ∧ has_attr w' self "_indication_callbacks" (VFuncs (fs0 ++ fs))
    ∧ registry w' = registry w
    ∧ trace w' = trace w ++ calls (fs0 ++ fs) data.
Proof.
  intros Hfs0 Hall. rewrite bind_eq.
  destruct (indicate_all_eq self fs fs0 w Hfs0) as (w1 & -> & Hfs & Hr & Ht).
  unfold BLEAttribute._on_indication.
  rewrite bind_eq, bind_eq, (getattr_has_attr _ _ _ _ Hfs). cbn [as_funcs mret M_ret].
  cbn beta iota. rewrite dispatch_loop_returns by done.
  eexists. split; [done|]. split; [|split].
  - eapply has_attr_app with (os := []); [|exact Hfs]. cbn. by rewrite app_nil_r.
  - done.
  - cbn [trace]. by rewrite Ht.
Qed.

(** X9: when a callback raises during an indication, the callbacks
    registered before it have been called, the exception comes out of
    [_on_indication], and the callbacks registered after it are not
    called. *)
Theorem indication_stops_at_raise (self : loc) (pre post : list callback) (c : callback)
    (e : exn) (data : bytes) (w : World) :
  has_attr w self "_indication_callbacks" (VFuncs (pre ++ c :: post)) →
  Forall (λ f, callback_stub env f data = None) pre →
  callback_stub env c data = Some e →
  BLEAttribute._on_indication env self data w =
    (Raise e, mkWorld (heap w) (registry w) (trace w ++ calls (pre ++ [c]) data)).
Proof.
  intros Hfs Hpre Hc. unfold BLEAttribute._on_indication.
  rewrite bind_eq, bind_eq, (getattr_has_attr _ _ _ _ Hfs). cbn [as_funcs mret M_ret].
  cbn beta iota. by apply dispatch_loop_raises.
Qed.

(** ** The two lists of callbacks *)

Lemma call_eq (f : callback) (data : bytes) (w : World) :
  call env f data w =
    (match callback_stub env f data with Some e => Raise e | None => Ok tt end,
     mkWorld (heap w) (registry w) (trace w ++ [callback_call f data])).
Proof. unfold call. rewrite bind_eq. cbn [log]. by destruct (callback_stub env f data). Qed.

(** A dispatch reads the trace only: it leaves the store and the registry,
    and what it returns and calls does not depend on them. *)
Lemma dispatch_loop_store (data : bytes) (fs : list callback) :
  ∀ w : World,
  let run := for_each fs (λ callback _, call env callback data) tt w in
  heap run.2 = heap w ∧ registry run.2 = registry w.
Proof.
  induction fs as [|f fs IH]; intros w; [done|].
  cbn zeta. cbn [for_each]. rewrite bind_eq, call_eq.
  destruct (callback_stub env f data) as [e|]; [done|].
  destruct (IH (mkWorld (heap w) (registry w) (trace w ++ [callback_call f data])))
    as [Hh Hr]. by split.
Qed.

Lemma dispatch_loop_trace_only (data : bytes) (fs : list callback) :
  ∀ w1 w2 : World,
  trace w1 = trace w2 →
  let run1 := for_each fs (λ callback _, call env callback data) tt w1 in
  let run2 := for_each fs (λ callback _, call env callback data) tt w2 in
  run1.1 = run2.1 ∧ trace run1.2 = trace run2.2.
Proof.
  induction fs as [|f fs IH]; intros w1 w2 Ht; [done|].
  cbn zeta. cbn [for_each]. rewrite !bind_eq, !call_eq.
  destruct (callback_stub env f data) as [e|].
  - cbn [fst snd trace]. by rewrite Ht.
  - apply IH. cbn [trace]. by rewrite Ht.
Qed.

Lemma has_attr_set_other (self : loc) (name name' : string) (v v' : value) (w : World)
    (o : Obj) :
  heap w !! self = Some o → name ≠ name' →
  has_attr w self name v →
  has_attr (mkWorld (<[self := set_field name' v' o]> (heap w)) (registry w) (trace w))
    self name v.
Proof.
  intros Ho Hne (o' & Ho' & Hv). rewrite Ho in Ho'. injection Ho' as <-.
  eexists. split.
  - cbn [heap]. apply list_lookup_insert_eq. by eapply lookup_lt_Some.
  - unfold set_field. cbn [obj_dict]. by rewrite lookup_insert_ne.
Qed.

(** X10: the callbacks for notifications and those for indications are
    kept apart: registering a callback by [notify] changes neither what an
    indication returns nor what it calls, and leaves the callbacks for
    indications as they were; likewise for [indicate] and a notification. *)
Theorem callback_lists_independent (self : loc) (ns ins : list callback) (f : callback)
    (data : bytes) (w : World) :
  has_attr w self "_notification_callbacks" (VFuncs ns) →
  has_attr w self "_indication_callbacks" (VFuncs ins) →
  (let run := (BLEAttribute.notify self f ;; BLEAttribute._on_indication env self data) w in
   let ref := BLEAttribute._on_indication env self data w in
   run.1 = ref.1 ∧ trace run.2 = trace ref.2
   ∧ has_attr run.2 self "_indication_callbacks" (VFuncs ins))
  ∧ (let run := (BLEAttribute.indicate self f ;; BLEAttribute._on_notification env self data) w in
     let ref := BLEAttribute._on_notification env self data w in
     run.1 = ref.1 ∧ trace run.2 = trace ref.2
     ∧ has_attr run.2 self "_notification_callbacks" (VFuncs ns)).
Proof.
  intros Hn Hi. pose proof Hn as (o & Ho & _). split; cbn zeta.
  - rewrite bind_eq. unfold BLEAttribute.notify.
    rewrite !bind_eq, (getattr_has_attr _ _ _ _ Hn). cbn [as_funcs mret M_ret].
    cbn beta iota. rewrite (setattr_eq _ _ _ _ _ Ho).
    pose proof (has_attr_set_other self "_indication_callbacks" "_notification_callbacks"
                  _ (VFuncs (ns ++ [f])) w o Ho ltac:(done) Hi) as Hi'.
    unfold BLEAttribute._on_indication.
    rewrite !bind_eq, (getattr_has_attr _ _ _ _ Hi), (getattr_has_attr _ _ _ _ Hi').
    cbn [as_funcs mret M_ret]. cbn beta iota.
    set (w1 := mkWorld _ _ _).
    destruct (dispatch_loop_trace_only data ins w1 w eq_refl) as [Hres Htr].
    destruct (dispatch_loop_store data ins w1) as [Hh _].
    split; [done|]. split; [done|].
    destruct Hi' as (o' & Ho' & Hv'). exists o'. by rewrite Hh.
  - rewrite bind_eq. unfold BLEAttribute.indicate.
    rewrite !bind_eq, (getattr_has_attr _ _ _ _ Hi). cbn [as_funcs mret M_ret].
    cbn beta iota. rewrite (setattr_eq _ _ _ _ _ Ho).
    pose proof (has_attr_set_other self "_notification_callbacks" "_indication_callbacks"
                  _ (VFuncs (ins ++ [f])) w o Ho ltac:(done) Hn) as Hn'.
    unfold BLEAttribute._on_notification.
    rewrite !bind_eq, (getattr_has_attr _ _ _ _ Hn), (getattr_has_attr _ _ _ _ Hn').
    cbn [as_funcs mret M_ret]. cbn beta iota.
    set (w1 := mkWorld _ _ _).
    destruct (dispatch_loop_trace_only data ns w1 w eq_refl) as [Hres Htr].
    destruct (dispatch_loop_store data ns w1) as [Hh _].
    split; [done|]. split; [done|].
    destruct Hn' as (o' & Ho' & Hv'). exists o'. by rewrite Hh.
Qed.

(** ** What the operations keep *)

Lemma getattr_world (self : loc) (name : string) (w : World) :
  (getattr self name w).2 = w.
Proof. unfold getattr. by repeat case_match. Qed.

Lemma attr_read_world {A : Type} (coerce : value → M A) (self : loc) (name : string)
    (w : World) :
  (∀ v w0, (coerce v w0).2 = w0) →
  ((getattr self name ≫= coerce) w).2 = w.
Proof.
  intros Hc. rewrite bind_eq. pose proof (getattr_world self name w) as Hw.
  destruct (getattr self name w) as [[v|e] w1]; cbn [snd] in *; subst w1; [apply Hc|done].
Qed.

(** Reading an attribute and coercing it: the world stays, and either a
    value comes out or an exception ends the operation. *)
Ltac read_attr :=
  rewrite bind_eq;
  match goal with
  | |- context [(getattr ?s ?n ≫= ?c) ?w] =>
      let H := fresh "H" in
      let r := fresh "r" in
      let w1 := fresh "w" in
      destruct ((getattr s n ≫= c) w) as [r w1] eqn:H;
      apply (f_equal snd) in H;
      rewrite attr_read_world in H by (by intros []);
      cbn [snd] in H; subst w1; destruct r; [|done]
  end.

Lemma world_after_shape (self : loc) (op : operation) (w : World) :
  ∃ g, heap (world_after env self op w) = alter g self (heap w)
    ∧ registry (world_after env self op w) = registry w
    ∧ keeps_fields g.
Proof.
  assert (keeps_fields id) as Hid by done.
  assert (∀ name v, name = "_notification_callbacks" ∨ name = "_indication_callbacks" →
            keeps_fields (set_field name v)) as Hset.
  { intros name v Hname o name' Hn Hi. unfold set_field. cbn [obj_dict].
    rewrite lookup_insert_ne; [done|]. by destruct Hname as [-> | ->]. }
  destruct op as [|data response|f|f|data|data|]; cbn [world_after].
  - exists id. rewrite list_alter_id by done. split; [|split; [|done]];
      unfold BLEAttribute.read; do 2 read_attr; unfold BLEDevice.read_handle;
      by rewrite bind_eq.
  - exists id. rewrite list_alter_id by done. split; [|split; [|done]];
      unfold BLEAttribute.write; do 2 read_attr; unfold BLEDevice.write_handle;
      by rewrite bind_eq.
  - unfold BLEAttribute.notify. rewrite bind_eq.
    destruct ((getattr self "_notification_callbacks" ≫= as_funcs) w) as [r w1] eqn:H.
    apply (f_equal snd) in H. rewrite attr_read_world in H by (by intros []).
    cbn [snd] in H. subst w1. destruct r as [fs|e].
    + eexists. split; [done|]. split; [done|]. apply Hset. by left.
    + exists id. rewrite list_alter_id by done. by repeat split.
  - unfold BLEAttribute.indicate. rewrite bind_eq.
    destruct ((getattr self "_indication_callbacks" ≫= as_funcs) w) as [r w1] eqn:H.
    apply (f_equal snd) in H. rewrite attr_read_world in H by (by intros []).
    cbn [snd] in H. subst w1. destruct r as [fs|e].
    + eexists. split; [done|]. split; [done|]. apply Hset. by right.
    + exists id. rewrite list_alter_id by done. by repeat split.
  - exists id. rewrite list_alter_id by done. split; [|split; [|done]];
      unfold BLEAttribute._on_notification; read_attr; apply dispatch_loop_store.
  - exists id. rewrite list_alter_id by done. split; [|split; [|done]];
      unfold BLEAttribute._on_indication; read_attr; apply dispatch_loop_store.
  - exists id. rewrite list_alter_id by done. split; [|split; [|done]];
      unfold BLEAttribute.shortest_uuid; read_attr;
      destruct (is_short_uuid _); by read_attr.
Qed.

Lemma world_after_has_attr (self a : loc) (op : operation) (name : string) (v : value)
    (w : World) :
  name ≠ "_notification_callbacks" →
  name ≠ "_indication_callbacks" →
  has_attr w a name v →
  has_attr (world_after env self op w) a name v.
Proof.
  intros Hn Hi (o & Ho & Hv).
  destruct (world_after_shape self op w) as (g & Hh & _ & Hg).
  destruct (decide (a = self)) as [->|Hne].
  - exists (g o). rewrite Hh, list_lookup_alter_eq, Ho. split; [done|].
    by rewrite Hg.
  - exists o. by rewrite Hh, list_lookup_alter_ne.
Qed.

(** X11: no operation on an attribute ([read], [write], [notify],
    [indicate], a notification, an indication, [shortest_uuid]), whether it
    returns or raises, changes a field of any object other than the two
    lists of callbacks, nor the registry, nor the number of objects. *)
Theorem operations_keep_fields (self a : loc) (op : operation) (name : string) (v : value)
    (w : World) :
  name ≠ "_notification_callbacks" →
  name ≠ "_indication_callbacks" →
  has_attr w a name v →
  has_attr (world_after env self op w) a name v
  ∧ registry (world_after env self op w) = registry w
  ∧ length (heap (world_after env self op w)) = length (heap w).
Proof.
  intros Hn Hi Ha. split; [by apply world_after_has_attr|].
  destruct (world_after_shape self op w) as (g & Hh & Hr & _).
  split; [done|]. by rewrite Hh, length_alter.
Qed.

End further_properties.

(** ** The handle registry *)

Section registry.
Context (env : Env).

Lemma registry_consistent_grow (w w' : World) (os : list Obj) :
  heap w' = heap w ++ os → registry w' = registry w →
  registry_consistent w → registry_consistent w'.
Proof.
  intros Hh Hr Hw d h a Ha. rewrite Hr in Ha. destruct (Hw d h a Ha) as [Hd Hv].
  split; by eapply has_attr_app.
Qed.

Lemma registry_consistent_constructed (c : class_name) (d : device_id) (h : Z) (u : N)
    (w : World) (t : list Event) :
  registry_consistent w →
  registry_consistent
    (mkWorld (heap w ++ [attribute_object c d h u])
             (<[(d, h) := length (heap w)]> (registry w)) t).
Proof.
  intros Hw d' h' a Ha. cbn [registry] in Ha.
  destruct (decide ((d, h) = (d', h'))) as [[= <- <-]|Hne].
  - rewrite lookup_insert_eq in Ha. injection Ha as <-.
    split; (eexists; split; [apply list_lookup_middle; done|]);
      apply attribute_object_attrs.
  - rewrite lookup_insert_ne in Ha by done. destruct (Hw d' h' a Ha) as [Hd Hv].
    split; by eapply has_attr_app.
Qed.

(** X16: the three constructors keep the handle registry consistent,
    whether they return or raise: every entry still leads to an attribute
    of that device and of that value handle. *)
Theorem construction_keeps_registry_consistent (c : constructor_call) (w : World) :
  registry_consistent w → registry_consistent (construct env c w).2.
Proof.
  intros Hw. destruct c as [d h u|d h u|d h vh eh u p]; cbn [construct].
  - rewrite BLEAttribute_new_eq. destruct (register_handle_stub env d h); cbn [snd].
    + by eapply registry_consistent_grow.
    + by apply registry_consistent_constructed.
  - rewrite BLEDescriptor_new_eq. destruct (register_handle_stub env d h); cbn [snd].
    + by eapply registry_consistent_grow.
    + by apply registry_consistent_constructed.
  - unfold BLECharacteristic.new. rewrite bind_eq. unfold alloc. cbn beta iota.
    rewrite bind_eq, BLECharacteristic_init_raises. cbn [snd].
    by eapply registry_consistent_grow.
Qed.

Lemma loop_keeps_registry_consistent (self : loc) (d : device_id)
    (pairs : list raw_descriptor) :
  ∀ (vars : BLECharacteristic.locals) (w : World),
  has_attr w self "device" (VDevice d) →
  registry_consistent w →
  registry_consistent (for_each pairs (BLECharacteristic.loop_body env self) vars w).2.
Proof.
  induction pairs as [|p pairs IH]; intros [ds desc] w Hd Hw; [done|].
  cbn [for_each]. rewrite bind_eq, (loop_body_eq _ _ d) by done.
  destruct (UUID_stub env (rd_uuid p)) as [u|e].
  - destruct (register_handle_stub env d (rd_handle p)) as [e|].
    + assert (registry_consistent (world_failed d (rd_handle p) u w)) as Hw1
        by (by eapply registry_consistent_grow).
      destruct (is_RuntimeError e); [|done].
      apply IH; [by apply has_attr_world_failed|done].
    + apply IH; [by apply has_attr_world_constructed|].
      by apply registry_consistent_constructed.
  - destruct (is_RuntimeError e); [by apply IH|done].
Qed.

Lemma discover_descriptors_empty (self : loc) (vh eh : Z) (w : World) :
  has_attr w self "value_handle" (VInt vh) →
  has_attr w self "end_handle" (VInt eh) →
  (eh < vh + 1)%Z →
  (BLECharacteristic._discover_descriptors env self w).2 = w.
Proof.
  intros Hv He Hlt. unfold BLECharacteristic._discover_descriptors. cbn zeta.
  rewrite !bind_eq, (getattr_has_attr _ _ _ _ Hv). cbn [as_int mret M_ret].
  cbn beta iota. rewrite !bind_eq, (getattr_has_attr _ _ _ _ He).
  cbn [as_int mret M_ret]. cbn beta iota.
  destruct (Z.gtb_spec (vh + 1) eh) as [_|Hle]; [done|lia].
Qed.

(** X17: the discovery of the descriptors keeps the handle registry
    consistent, on an empty range or not and whatever comes of it. *)
Theorem discovery_keeps_registry_consistent (self : loc) (d : device_id) (vh eh : Z)
    (w : World) :
  has_attr w self "device" (VDevice d) →
  has_attr w self "value_handle" (VInt vh) →
  has_attr w self "end_handle" (VInt eh) →
  registry_consistent w →
  registry_consistent (BLECharacteristic._discover_descriptors env self w).2.
Proof.
  intros Hd Hv He Hw. destruct (decide (vh + 1 ≤ eh)%Z) as [Hle|Hgt].
  - rewrite (discover_descriptors_eq _ _ d vh eh) by done.
    assert (registry_consistent (world_discovering d (vh + 1) eh w)) as Hw1.
    { eapply registry_consistent_grow with (os := []); [|done..]. cbn. by rewrite app_nil_r. }
    destruct (discover_descriptors_stub env d (vh + 1) eh) as [found|e]; [|done].
    pose proof (loop_keeps_registry_consistent self d found (∅, None) _
                  (has_attr_world_discovering _ _ _ d (vh + 1) eh _ Hd) Hw1) as Hloop.
    destruct (for_each found _ _ _) as [[vars|e] w']; [|done].
    by destruct (vars.2).
  - by rewrite (discover_descriptors_empty _ vh eh) by (done || lia).
Qed.

(** X18: every operation on an attribute keeps the handle registry
    consistent, whether it returns or raises. *)
Theorem operations_keep_registry_consistent (self : loc) (op : operation) (w : World) :
  registry_consistent w → registry_consistent (world_after env self op w).
Proof.
  intros Hw d h a Ha.
  destruct (world_after_shape env self op w) as (g & _ & Hr & _).
  rewrite Hr in Ha. destruct (Hw d h a Ha) as [Hd Hv].
  split; by apply world_after_has_attr.
Qed.

End registry.

(** ** The shortest form, again *)

Ltac abstract_digits :=
  repeat match goal with
         | |- context [hex_digit ?x] => generalize (hex_digit x); intro
         end.

Lemma shortest_uuid_eq (self : loc) (u : N) (w : World) :
  has_attr w self "uuid" (VUUID u) →
  BLEAttribute.shortest_uuid self w = (Ok (shortest u), w).
Proof.
  intros Hu. unfold BLEAttribute.shortest_uuid, shortest.
  rewrite !bind_eq, (getattr_has_attr _ _ _ _ Hu). cbn [as_uuid mret M_ret].
  cbn beta iota.
  destruct (is_short_uuid u); rewrite !bind_eq, (getattr_has_attr _ _ _ _ Hu);
    by cbn [as_uuid mret M_ret].
Qed.

Lemma UUID_str_length (u : N) : String.length (UUID_str u) = 36.
Proof. unfold UUID_str. cbn zeta. cbn [hex_fixed]. abstract_digits. reflexivity. Qed.

Lemma short_form_length (u : N) : String.length (slice 4 8 (UUID_str u)) = 4.
Proof. unfold UUID_str. cbn zeta. cbn [hex_fixed]. abstract_digits. reflexivity. Qed.

(** X12: [shortest_uuid] returns a text of 4 characters for a UUID of the
    Bluetooth base and of 36 characters for any other UUID, and leaves the
    world as it was. *)
Theorem shortest_uuid_length (self : loc) (u : N) (w : World) :
  has_attr w self "uuid" (VUUID u) →
  ∃ text, BLEAttribute.shortest_uuid self w = (Ok text, w)
    ∧ String.length text = if is_short_uuid u then 4 else 36.
Proof.
  intros Hu. exists (shortest u). split; [by apply shortest_uuid_eq|].
  unfold shortest. destruct (is_short_uuid u);
    [apply short_form_length|apply UUID_str_length].
Qed.

Lemma hex_digit_inj (x y : N) :
  (x < 16)%N → (y < 16)%N → hex_digit x = hex_digit y → x = y.
Proof.
  intros Hx Hy.
  rewrite <- (N2Nat.id x), <- (N2Nat.id y).
  assert (N.to_nat x < 16) as Hi by lia. assert (N.to_nat y < 16) as Hj by lia.
  generalize dependent (N.to_nat x). generalize dependent (N.to_nat y).
  intros j Hj i Hi.
  do 16 (destruct i as [|i]; [do 16 (destruct j as [|j]; [by vm_compute|]); lia|]).
  lia.
Qed.

Lemma hex_fixed_inj (w : nat) (a b : N) :
  hex_fixed w a = hex_fixed w b → (a mod 16 ^ N.of_nat w = b mod 16 ^ N.of_nat w)%N.
Proof.
  induction w as [|w IH]; [intros _; by rewrite !N.mod_1_r|].
  cbn [hex_fixed]. intros [= Hd Ht].
  apply hex_digit_inj in Hd; [|by apply N.mod_lt..].
  rewrite Nat2N.inj_succ, N.pow_succ_r', (N.mul_comm 16).
  rewrite !N.Div0.mod_mul_r, Hd, (IH Ht). done.
Qed.

Lemma UUID_str_inj (a b : N) :
  UUID_str a = UUID_str b → hex_fixed 32 a = hex_fixed 32 b.
Proof.
  unfold UUID_str. cbn zeta. cbn [hex_fixed]. abstract_digits.
  cbn. intros H. by simplify_eq.
Qed.

Lemma short_uuid_decompose (u : N) :
  is_short_uuid u = true → u = (2 ^ 96 * short_segment u + BASE_UUID_low)%N.
Proof.
  unfold is_short_uuid, short_segment. intros [Hhigh Hlow]%andb_prop.
  apply N.eqb_eq in Hhigh, Hlow.
  apply N.div_small_iff in Hhigh; [|done].
  rewrite N.mod_small.
  - rewrite <- Hlow. apply N.Div0.div_mod.
  - apply N.Div0.div_lt_upper_bound. by change (2 ^ 96 * 2 ^ 16)%N with (2 ^ 112)%N.
Qed.

Lemma shortest_inj (a b : N) :
  (a < 2 ^ 128)%N → (b < 2 ^ 128)%N → shortest a = shortest b → a = b.
Proof.
  intros Ha Hb. unfold shortest.
  destruct (is_short_uuid a) eqn:Hsa, (is_short_uuid b) eqn:Hsb; intros Heq.
  - rewrite (proj2 (UUID_str_short a Hsa)), (proj2 (UUID_str_short b Hsb)) in Heq.
    apply hex_fixed_inj in Heq. change (16 ^ N.of_nat 4)%N with (2 ^ 16)%N in Heq.
    assert (∀ u, (short_segment u mod 2 ^ 16 = short_segment u)%N) as Hseg
      by (intros u; unfold short_segment; apply N.Div0.mod_mod).
    rewrite !Hseg in Heq.
    rewrite (short_uuid_decompose a Hsa), (short_uuid_decompose b Hsb).
    by rewrite Heq.
  - apply (f_equal String.length) in Heq.
    by rewrite short_form_length, UUID_str_length in Heq.
  - apply (f_equal String.length) in Heq.
    by rewrite short_form_length, UUID_str_length in Heq.
  - apply UUID_str_inj, hex_fixed_inj in Heq.
    change (16 ^ N.of_nat 32)%N with (2 ^ 128)%N in Heq.
    by rewrite !N.mod_small in Heq.
Qed.

(** X13: the shortest form determines the UUID: two attributes with
    128-bit UUIDs for which [shortest_uuid] returns the same text have the
    same UUID. *)
Theorem shortest_uuid_unique (self1 self2 : loc) (u1 u2 : N) (w1 w2 : World) :
  has_attr w1 self1 "uuid" (VUUID u1) →
  has_attr w2 self2 "uuid" (VUUID u2) →
  (u1 < 2 ^ 128)%N → (u2 < 2 ^ 128)%N →
  (BLEAttribute.shortest_uuid self1 w1).1 = (BLEAttribute.shortest_uuid self2 w2).1 →
  u1 = u2.
Proof.
  intros H1 H2 Hb1 Hb2.
  rewrite (shortest_uuid_eq _ _ _ H1), (shortest_uuid_eq _ _ _ H2).
  intros [= Heq]. by apply shortest_inj.
Qed.

(** ** The display form *)

Lemma self_shortest_uuid_descriptor (self : loc) (u : N) (w : World) (o : Obj) :
  heap w !! self = Some o →
  obj_class o = cBLEDescriptor →
  obj_dict o !! "uuid" = Some (VUUID u) →
  self_shortest_uuid self w = (Ok (shortest u), w).
Proof.
  intros Ho Hc Hu. unfold self_shortest_uuid. rewrite Ho, Hc. cbn [mro bases existsb
    defines_shortest_uuid orb]. apply shortest_uuid_eq. by exists o.
Qed.

(** X14: the display form of a descriptor is the name that the table
    gives for its shortest form, or the shortest form itself when the table
    has no entry for it; an entry without a name raises [KeyError].  The
    world is left as it was. *)
Theorem descriptor_repr (DESC_UUIDS : gmap string (gmap string string)) (self : loc)
    (u : N) (w : World) (o : Obj) :
  heap w !! self = Some o →
  obj_class o = cBLEDescriptor →
  obj_dict o !! "uuid" = Some (VUUID u) →
  BLEDescriptor.__repr__ DESC_UUIDS self w =
    (match DESC_UUIDS !! shortest u with
     | None => Ok (shortest u)
     | Some entry =>
         match entry !! "name" with
         | Some name => Ok name
         | None => Raise (OtherError "KeyError")
         end
     end, w).
Proof.
  intros Ho Hc Hu. unfold BLEDescriptor.__repr__.
  rewrite bind_eq, (self_shortest_uuid_descriptor _ u _ o) by done.
  destruct (DESC_UUIDS !! shortest u) as [entry|] eqn:Hentry.
  - rewrite bool_decide_eq_false_2 by done.
    rewrite bind_eq, (self_shortest_uuid_descriptor _ u _ o) by done.
    unfold table_name. rewrite Hentry. by destruct (entry !! "name").
  - rewrite bool_decide_eq_true_2 by done.
    by rewrite bind_eq, (self_shortest_uuid_descriptor _ u _ o) by done.
Qed.

(** X15: the display form of an object of class [BLECharacteristic]
    raises [AttributeError], whatever the table: the class defines no
    [shortest_uuid] and has no base that does. *)
Theorem characteristic_repr_raises (CHAR_UUIDS : gmap string (gmap string string))
    (self : loc) (w : World) (o : Obj) :
  heap w !! self = Some o →
  obj_class o = cBLECharacteristic →
  BLECharacteristic.__repr__ CHAR_UUIDS self w = (Raise AttributeError, w).
Proof.
  intros Ho Hc. unfold BLECharacteristic.__repr__, self_shortest_uuid.
  by rewrite bind_eq, Ho, Hc.
Qed.

(** ** The further properties on the examples *)

Lemma registry_consistent_empty (hp : list Obj) (t : list Event) :
  registry_consistent (mkWorld hp ∅ t).
Proof. intros d h a Ha. cbn in Ha. by rewrite lookup_empty in Ha. Qed.

Lemma descriptor_construction_stores_witness :
  let w' := world_constructed 0 10 uuidA empty_world in
  BLEDescriptor.new env_three 0 10 uuidA empty_world = (Ok 0, w')
  ∧ 0 = length (heap empty_world)
  ∧ (∃ o, heap w' = heap empty_world ++ [o] ∧ obj_class o = cBLEDescriptor
        ∧ dom (obj_dict o) =
            {["device"; "value_handle"; "uuid"; "_notification_callbacks";
              "_indication_callbacks"]})
  ∧ has_attr w' 0 "device" (VDevice 0)
  ∧ has_attr w' 0 "value_handle" (VInt 10)
  ∧ has_attr w' 0 "uuid" (VUUID uuidA)
  ∧ has_attr w' 0 "_notification_callbacks" (VFuncs [])
  ∧ has_attr w' 0 "_indication_callbacks" (VFuncs []).
Proof.
  cbn zeta. split; [by vm_compute|].
  apply (descriptor_construction_stores env_three 0 10 uuidA empty_world). by vm_compute.
Defined.

Lemma descriptor_construction_failure_witness :
  let run := BLEDescriptor.new env_none_constructed 0 6 uuidA empty_world in
  register_handle_stub env_none_constructed 0 6 = Some not_found
  ∧ run.1 = Raise not_found
  ∧ registry run.2 = registry empty_world
  ∧ ∀ v, ¬ has_attr run.2 (length (heap empty_world)) "_notification_callbacks" v.
Proof.
  cbn zeta. split; [reflexivity|].
  apply (proj2 (proj2 (descriptor_construction_failure env_none_constructed 0 6 uuidA
                         empty_world))).
  reflexivity.
Defined.

Lemma discovery_calls_witness :
  ∃ evs,
    trace (BLECharacteristic._discover_descriptors env_three 0
             (world_of_characteristic 9 12)).2 =
      trace (world_of_characteristic 9 12) ++ discover_descriptors_call 0 (9 + 1) 12 :: evs
    ∧ Forall (λ ev, ∃ p a, p ∈ [mkRaw 10 UuidA; mkRaw 11 UuidB; mkRaw 12 UuidA]
                      ∧ ev = register_handle_call 0 (rd_handle p) a) evs.
Proof.
  apply (discovery_calls env_three 0 0 9 12 [mkRaw 10 UuidA; mkRaw 11 UuidB; mkRaw 12 UuidA]
           (world_of_characteristic 9 12));
    [attr_here | attr_here | attr_here | lia | reflexivity].
Defined.

Lemma discovery_frame_witness :
  let w := world_of_characteristic 9 12 in
  let w' := (BLECharacteristic._discover_descriptors env_three 0 w).2 in
  (∃ os, heap w' = heap w ++ os ∧ Forall (λ o, obj_class o = cBLEDescriptor) os)
  ∧ (∀ k, (∀ p, p ∈ [mkRaw 10 UuidA; mkRaw 11 UuidB; mkRaw 12 UuidA] →
             k ≠ (0, rd_handle p)) → registry w' !! k = registry w !! k).
Proof.
  apply (discovery_frame env_three 0 0 9 12 [mkRaw 10 UuidA; mkRaw 11 UuidB; mkRaw 12 UuidA]
           (world_of_characteristic 9 12));
    [attr_here | attr_here | attr_here | lia | reflexivity].
Defined.

Lemma discovery_call_error_witness :
  let w := world_of_characteristic 5 8 in
  BLECharacteristic._discover_descriptors env_discovery_not_found 0 w =
    (Raise not_found, mkWorld (heap w) (registry w)
                        (trace w ++ [discover_descriptors_call 0 (5 + 1) 8])).
Proof.
  apply (discovery_call_error env_discovery_not_found 0 0 5 8 not_found
           (world_of_characteristic 5 8));
    [attr_here | attr_here | attr_here | lia | reflexivity].
Defined.

Lemma discovery_returns_last_constructed_witness :
  ∃ a w',
    BLECharacteristic._discover_descriptors (env_raising_at_7 not_found) 0
      (world_of_characteristic 5 8) = (Ok (VRef a), w')
    ∧ has_attr w' a "value_handle" (VInt (rd_handle (mkRaw 8 UuidA)))
    ∧ registry w' !! (0, rd_handle (mkRaw 8 UuidA)) = Some a.
Proof.
  apply (discovery_returns_last_constructed (env_raising_at_7 not_found) 0 0 5 8
           [mkRaw 6 UuidA; mkRaw 7 UuidB] [] (mkRaw 8 UuidA) (world_of_characteristic 5 8));
    [attr_here | attr_here | attr_here | lia | reflexivity | | by vm_compute
    | by apply Forall_nil].
  repeat (apply Forall_cons; split; [by vm_compute|]). by apply Forall_nil.
Defined.

Lemma loop_groups_by_uuid_witness :
  let env := env_raising_at_7 not_found in
  let pairs := [mkRaw 6 UuidA; mkRaw 7 UuidB; mkRaw 8 UuidA] in
  let w := world_of_characteristic 5 8 in
  ∃ (made : list (loc * N)) (ds : gmap N (list loc)) (w' : World),
    for_each pairs (BLECharacteristic.loop_body env 0) (∅, None) w =
      (Ok (ds, last made.*1), w')
    ∧ Forall2 (constructed_as env 0 w') (filter (λ p, constructs env 0 p = true) pairs) made
    ∧ StronglySorted lt made.*1
    ∧ Forall (λ x, length (heap w) ≤ x.1) made
    ∧ ∀ u, ds !! u =
        let bucket := (filter (λ x, x.2 = u) made).*1 in
        if decide (bucket = []) then None else Some bucket.
Proof.
  cbn zeta.
  apply (loop_groups_by_uuid (env_raising_at_7 not_found) 0 0
           [mkRaw 6 UuidA; mkRaw 7 UuidB; mkRaw 8 UuidA] (world_of_characteristic 5 8));
    [attr_here|].
  repeat (apply Forall_cons; split; [by vm_compute|]). by apply Forall_nil.
Defined.

Lemma indication_calls_in_order_witness :
  let w := world_constructed 0 9 uuidA empty_world in
  ∃ w', (indicate_all 0 [3; 5; 3] ;; BLEAttribute._on_indication env_three 0 [x01; x02]) w
          = (Ok tt, w')
    ∧ has_attr w' 0 "_indication_callbacks" (VFuncs ([] ++ [3; 5; 3]))
    ∧ registry w' = registry w
    ∧ trace w' = trace w ++ calls ([] ++ [3; 5; 3]) [x01; x02].
Proof.
  cbn zeta.
  apply (indication_calls_in_order env_three 0 [] [3; 5; 3] [x01; x02]
           (world_constructed 0 9 uuidA empty_world)); [attr_here|].
  repeat (apply Forall_cons; split; [reflexivity|]). by apply Forall_nil.
Defined.

Lemma indication_stops_at_raise_witness :
  let w := world_of_indicated in
  callback_stub env_callback_raises 0 [x01; x02] = Some (OtherError "Exception")
  ∧ BLEAttribute._on_indication env_callback_raises 0 [x01; x02] w =
      (Raise (OtherError "Exception"),
       mkWorld (heap w) (registry w) (trace w ++ calls ([1] ++ [0]) [x01; x02])).
Proof.
  cbn zeta. split; [reflexivity|].
  apply (indication_stops_at_raise env_callback_raises 0 [1] [2] 0
           (OtherError "Exception") [x01; x02]); [attr_here | | reflexivity].
  repeat (apply Forall_cons; split; [reflexivity|]). by apply Forall_nil.
Defined.

Lemma callback_lists_independent_witness :
  let w := world_of_indicated in
  let run := (BLEAttribute.notify 0 7 ;;
              BLEAttribute._on_indication env_callback_raises 0 [x01; x02]) w in
  let ref := BLEAttribute._on_indication env_callback_raises 0 [x01; x02] w in
  run.1 = ref.1 ∧ trace run.2 = trace ref.2
  ∧ has_attr run.2 0 "_indication_callbacks" (VFuncs [1; 0; 2]).
Proof.
  apply (proj1 (callback_lists_independent env_callback_raises 0 [] [1; 0; 2] 7 [x01; x02]
                  world_of_indicated ltac:(attr_here) ltac:(attr_here))).
Defined.

Lemma operations_keep_fields_witness :
  let w := world_constructed 0 10 uuidA empty_world in
  has_attr (world_after env_three 0 (op_notify 4) w) 0 "uuid" (VUUID uuidA)
  ∧ registry (world_after env_three 0 (op_notify 4) w) = registry w
  ∧ length (heap (world_after env_three 0 (op_notify 4) w)) = length (heap w).
Proof.
  apply (operations_keep_fields env_three 0 0 (op_notify 4) "uuid" (VUUID uuidA)
           (world_constructed 0 10 uuidA empty_world)); [done | done | attr_here].
Defined.

Lemma shortest_uuid_length_witness :
  let w := world_constructed 0 10 uuidA empty_world in
  ∃ text, BLEAttribute.shortest_uuid 0 w = (Ok text, w)
    ∧ String.length text = if is_short_uuid uuidA then 4 else 36.
Proof.
  apply (shortest_uuid_length 0 uuidA (world_constructed 0 10 uuidA empty_world)).
  attr_here.
Defined.

Lemma shortest_uuid_unique_witness :
  let w1 := world_constructed 0 10 uuidA empty_world in
  let w2 := world_constructed 0 11 uuidA empty_world in
  (BLEAttribute.shortest_uuid 0 w1).1 = (BLEAttribute.shortest_uuid 0 w2).1
  ∧ uuidA = uuidA.
Proof.
  cbn zeta. split; [by vm_compute|].
  apply (shortest_uuid_unique 0 0 uuidA uuidA (world_constructed 0 10 uuidA empty_world)
           (world_constructed 0 11 uuidA empty_world));
    [attr_here | attr_here | by vm_compute | by vm_compute | by vm_compute].
Defined.

Lemma descriptor_repr_witness :
  let w := world_constructed 0 10 uuidA empty_world in
  BLEDescriptor.__repr__ names 0 w =
    (match names !! shortest uuidA with
     | None => Ok (shortest uuidA)
     | Some entry =>
         match entry !! "name" with
         | Some name => Ok name
         | None => Raise (OtherError "KeyError")
         end
     end, w)
  ∧ (BLEDescriptor.__repr__ names 0 w).1 = Ok "Client Characteristic Configuration".
Proof.
  cbn zeta. split; [|by vm_compute].
  apply (descriptor_repr names 0 uuidA (world_constructed 0 10 uuidA empty_world)
           (attribute_object cBLEDescriptor 0 10 uuidA)); by vm_compute.
Defined.

Lemma characteristic_repr_raises_witness :
  BLECharacteristic.__repr__ names 0 (world_of_characteristic 9 12) =
    (Raise AttributeError, world_of_characteristic 9 12).
Proof.
  apply (characteristic_repr_raises names 0 (world_of_characteristic 9 12)
           (characteristic_object 0 8 9 12 0x00002a37_0000_1000_8000_00805f9b34fb 16));
    reflexivity.
Defined.

Lemma construction_keeps_registry_consistent_witness :
  registry_consistent (construct env_three (new_BLEDescriptor 0 10 uuidA) empty_world).2.
Proof.
  apply (construction_keeps_registry_consistent env_three (new_BLEDescriptor 0 10 uuidA)
           empty_world).
  apply registry_consistent_empty.
Defined.

Lemma discovery_keeps_registry_consistent_witness :
  registry_consistent
    (BLECharacteristic._discover_descriptors env_three 0 (world_of_characteristic 9 12)).2.
Proof.
  apply (discovery_keeps_registry_consistent env_three 0 0 9 12
           (world_of_characteristic 9 12));
    [attr_here | attr_here | attr_here | apply registry_consistent_empty].
Defined.

Lemma operations_keep_registry_consistent_witness :
  registry_consistent
    (world_after env_three 0 (op_indicate 4) (world_constructed 0 10 uuidA empty_world)).
Proof.
  apply (operations_keep_registry_consistent env_three 0 (op_indicate 4)
           (world_constructed 0 10 uuidA empty_world)).
  apply (registry_consistent_constructed cBLEDescriptor 0 10 uuidA empty_world).
  apply registry_consistent_empty.
Defined.
